(** * habitat_transition.spacenearus: a verification development

    A shallow embedding of [src/habitat_transition/spacenearus.py] (the
    SpaceNearUs daemon, Python 2) and the properties of its dedup cache,
    field mapping, float stringification and upload worker loop.

    Layout: the Python values the daemon handles (floats, JSON values),
    the exception and state monad the methods run in, the methods
    themselves in source order, and then the theorems. *)

From Stdlib Require Import ZArith Ascii String.
From stdpp Require Import gmap strings pretty list fin_maps.

Local Open Scope Z_scope.

(** ** Python floats

    A binary64 value, kept exactly: [Fin neg m e] is (-1)^neg * m * 2^e.
    Arithmetic is done on the exact value and rounded once, to nearest
    with ties to even, which is what the hardware does. *)
Module PyFloat.

Inductive float :=
| Nan
| Inf (neg : bool)
| Zero (neg : bool)
| Fin (neg : bool) (m : positive) (e : Z).

(** Round m * 2^e to 53 bits of precision and the binary64 exponent range
    (least exponent -1074; 2^1024 and above becomes an infinity). *)
Definition b64_round (neg : bool) (m : positive) (e : Z) : float :=
  let bits := Z.log2 (Z.pos m) + 1 in
  let sh := Z.max (bits - 53) (-1074 - e) in
  if sh <=? 0 then
    if 1024 <? bits + e then Inf neg else Fin neg m e
  else
    let q := Z.pos m / 2 ^ sh in
    let r := Z.pos m mod 2 ^ sh in
    let half := 2 ^ (sh - 1) in
    let q' := if (half <? r) || ((r =? half) && Z.odd q) then q + 1 else q in
    if q' =? 0 then Zero neg
    else if 1024 <? Z.log2 q' + 1 + e + sh then Inf neg
    else Fin neg (Z.to_pos q') (e + sh).

(** [x * y] on floats. *)
Definition fmul (x y : float) : float :=
  match x, y with
  | Nan, _ | _, Nan => Nan
  | Inf _, Zero _ | Zero _, Inf _ => Nan
  | Inf s, Inf t | Inf s, Fin t _ _ | Fin s _ _, Inf t => Inf (xorb s t)
  | Zero s, Zero t | Zero s, Fin t _ _ | Fin s _ _, Zero t => Zero (xorb s t)
  | Fin s m1 e1, Fin t m2 e2 => b64_round (xorb s t) (m1 * m2) (e1 + e2)
  end.

(** [float(n)] for an integer; [None] is Python's OverflowError. *)
Definition of_int (n : Z) : option float :=
  match n with
  | Z0 => Some (Zero false)
  | Z.pos p => match b64_round false p 0 with Inf _ => None | x => Some x end
  | Z.neg p => match b64_round true p 0 with Inf _ => None | x => Some x end
  end.

(** The literals of the source. *)
Definition f1_0 : float := Fin false 1 0.
Definition f3_6 : float := Fin false 8106479329266893 (-51).
Definition f32_3 : float := Fin false 2272910436938547 (-46).
Definition fm64_8 : float := Fin true 4559894622712627 (-46).

(** [bool(x)]: every float but the two zeros is true. *)
Definition truthy (x : float) : bool :=
  match x with Zero _ => false | _ => true end.

(** *** [str(x)]

    Python 2 renders a float with [%.12g]: the value rounded to 12
    significant decimal digits (the source says so where it calls [str]),
    in positional notation when the decimal exponent is in [-4, 11) and in
    exponent notation otherwise, trailing zeros dropped, and [.0] appended
    when the positional result would read as an integer (which is why the
    exponent notation starts one decade early, at 1e+11). *)

(** The value as a fraction num / den. *)
Definition frac_num (m : positive) (e : Z) : Z := Z.pos m * 2 ^ Z.max e 0.
Definition frac_den (e : Z) : Z := 2 ^ Z.max (- e) 0.

(** Largest j with den * 10^j <= num, for den <= num. *)
Fixpoint count_up (fuel : nat) (num den : Z) : Z :=
  match fuel with
  | O => 0
  | S f => if 10 * den <=? num then 1 + count_up f num (10 * den) else 0
  end.

(** Least j >= 1 with den <= num * 10^j, for num < den. *)
Fixpoint count_down (fuel : nat) (num den : Z) : Z :=
  match fuel with
  | O => 1
  | S f => if den <=? 10 * num then 1 else 1 + count_down f (10 * num) den
  end.

(** floor (log10 (num / den)). *)
Definition dec_exponent (num den : Z) : Z :=
  if den <=? num then count_up (Z.to_nat (Z.log2 num) + 1) num den
  else - count_down (Z.to_nat (Z.log2 den) + 1) num den.

(** n / d rounded to the nearest integer, ties to even. *)
Definition div_half_even (n d : Z) : Z :=
  let q := n / d in
  let r := n mod d in
  if 2 * r <? d then q
  else if d <? 2 * r then q + 1
  else if Z.even q then q else q + 1.

(** The 12 significant digits and the decimal exponent of m * 2^e:
    [(d, k)] with 10^11 <= d < 10^12 and value ~ d * 10^(k - 11). *)
Definition round12 (m : positive) (e : Z) : Z * Z :=
  let num := frac_num m e in
  let den := frac_den e in
  let k := dec_exponent num den in
  let d := div_half_even (num * 10 ^ Z.max (11 - k) 0) (den * 10 ^ Z.max (k - 11) 0) in
  if d =? 10 ^ 12 then (10 ^ 11, k + 1) else (d, k).

Definition digit_char (d : Z) : ascii := ascii_of_nat (48 + Z.to_nat d).

(** The [n] low decimal digits of [d], least significant first. *)
Fixpoint digits_rev (n : nat) (d : Z) : list ascii :=
  match n with
  | O => []
  | S n' => digit_char (d mod 10) :: digits_rev n' (d / 10)
  end.

Definition digits (n : nat) (d : Z) : list ascii := rev (digits_rev n d).

(** How many decimal digits a non-negative integer has (at least one). *)
Fixpoint num_digits (fuel : nat) (d : Z) : nat :=
  match fuel with
  | O => 1
  | S f => if d <? 10 then 1%nat else S (num_digits f (d / 10))
  end.

Definition zero_char : ascii := "0"%char.

Fixpoint strip_zeros_rev (l : list ascii) : list ascii :=
  match l with
  | c :: l' => if Ascii.eqb c zero_char then strip_zeros_rev l' else l
  | [] => []
  end.

(** Drop trailing zeros, always keeping the first digit. *)
Definition strip_trailing_zeros (l : list ascii) : list ascii :=
  match l with
  | [] => []
  | c :: l' => c :: rev (strip_zeros_rev (rev l'))
  end.

(** The exponent of the exponent notation: a sign and at least two digits. *)
Definition exp_str (k : Z) : list ascii :=
  let a := Z.abs k in
  let n := Nat.max 2 (num_digits (Z.to_nat (Z.log2 a) + 1) a) in
  (if k <? 0 then "-"%char else "+"%char) :: digits n a.

(** [%.12g] of the digits [d] with decimal exponent [k], plus Python's [.0]. *)
Definition format_g (d k : Z) : list ascii :=
  let ds := strip_trailing_zeros (digits 12 d) in
  let nd := Z.of_nat (length ds) in
  let decpt := k + 1 in
  if (k <? -4) || (11 <=? k) then
    match ds with
    | [] => []
    | c :: nil => c :: "e"%char :: exp_str k
    | c :: rest => c :: "."%char :: rest ++ "e"%char :: exp_str k
    end
  else if decpt <=? 0 then
    "0"%char :: "."%char :: replicate (Z.to_nat (- decpt)) zero_char ++ ds
  else if nd <=? decpt then
    ds ++ replicate (Z.to_nat (decpt - nd)) zero_char ++ ["."%char; "0"%char]
  else
    take (Z.to_nat decpt) ds ++ "."%char :: drop (Z.to_nat decpt) ds.

Definition str (x : float) : string :=
  match x with
  | Nan => "nan"
  | Inf false => "inf"
  | Inf true => "-inf"
  | Zero false => "0.0"
  | Zero true => "-0.0"
  | Fin neg m e =>
      let '(d, k) := round12 m e in
      string_of_list_ascii ((if neg then ["-"%char] else []) ++ format_g d k)
  end.


End PyFloat.

Export PyFloat(float).

(** ** JSON values

    What [json] decoding hands the daemon: a document's [data] is a
    dictionary of these, arbitrarily nested. *)
#[warnings="-register-all"]
Inductive json :=
| JNull
| JBool (b : bool)
| JInt (n : Z)
| JFloat (x : float)
| JStr (s : string)
| JList (l : list json)
| JDict (d : gmap string json).

(** ** The Python operations the methods use *)

Inductive exn := KeyError | AttributeError | TypeError | OverflowError | ValueError.

#[warnings="-register-all"]
Inductive outcome (A : Type) :=
| Returned (a : A)
| Raised (e : exn).
Arguments Returned {A} a.
Arguments Raised {A} e.

(** [bool(v)]. *)
Definition py_truthy (v : json) : bool :=
  match v with
  | JNull => false
  | JBool b => b
  | JInt n => negb (n =? 0)
  | JFloat x => PyFloat.truthy x
  | JStr s => negb (String.eqb s "")
  | JList l => match l with [] => false | _ => true end
  | JDict d => negb (bool_decide (d = ∅))
  end.

(** [needle in hay] on two strings: substring search. *)
Fixpoint contains (needle hay : string) : bool :=
  String.prefix needle hay ||
  match hay with
  | EmptyString => false
  | String _ hay' => contains needle hay'
  end.

Definition is_str (s : string) (v : json) : bool :=
  match v with JStr t => String.eqb s t | _ => false end.

(** [needle in v] for a string [needle] and any value [v]. *)
Definition py_in (needle : string) (v : json) : outcome bool :=
  match v with
  | JStr s => Returned (contains needle s)
  | JList l => Returned (existsb (is_str needle) l)
  | JDict d => Returned (bool_decide (is_Some (d !! needle)))
  | _ => Raised TypeError
  end.

(** The one-character strings of [s], as iterating over it yields them. *)
Fixpoint chars (s : string) : list json :=
  match s with
  | EmptyString => []
  | String c s' => JStr (String c EmptyString) :: chars s'
  end.

(** [v += suffix] for a string [suffix]: a string is concatenated, a
    list is extended by the characters. *)
Definition py_iadd_str (v : json) (suffix : string) : outcome json :=
  match v with
  | JStr s => Returned (JStr (s ++ suffix)%string)
  | JList l => Returned (JList (l ++ chars suffix))
  | _ => Raised TypeError
  end.

(** [v * y] for a float [y]. *)
Definition py_mul_float (v : json) (y : float) : outcome json :=
  match v with
  | JFloat x => Returned (JFloat (PyFloat.fmul x y))
  | JInt n =>
      match PyFloat.of_int n with
      | Some x => Returned (JFloat (PyFloat.fmul x y))
      | None => Raised OverflowError
      end
  | JBool b =>
      Returned (JFloat (PyFloat.fmul (if b then PyFloat.f1_0 else PyFloat.Zero false) y))
  | _ => Raised TypeError
  end.

(** [s.replace(":", "")]. *)
Fixpoint remove_colons (s : string) : string :=
  match s with
  | EmptyString => EmptyString
  | String c s' =>
      if Ascii.eqb c ":"%char then remove_colons s' else String c (remove_colons s')
  end.

(** [v.replace(":", "")]: only strings have the method. *)
Definition py_replace_colons (v : json) : outcome json :=
  match v with
  | JStr s => Returned (JStr (remove_colons s))
  | _ => Raised AttributeError
  end.

(** [d.keys()]. *)
Definition keys {A} (d : gmap string A) : list string := (map_to_list d).*1.

(** [time.strftime("%H%M%S", time.gmtime(t))]. *)
Definition strftime_HMS (t : Z) : string :=
  string_of_list_ascii
    (PyFloat.digits 2 ((t / 3600) mod 24) ++
     PyFloat.digits 2 ((t / 60) mod 60) ++
     PyFloat.digits 2 (t mod 60)).

(** ** The state and exception monad

    A method runs on the mutable objects it can reach and either returns
    or raises; what it wrote before raising stays written. *)
Definition M (S A : Type) : Type := S → outcome A * S.

#[global] Instance M_ret {S} : MRet (M S) := λ A a s, (Returned a, s).
#[global] Instance M_bind {S} : MBind (M S) := λ A B f m s,
  match m s with
  | (Returned a, s') => f a s'
  | (Raised e, s') => (Raised e, s')
  end.

Definition raise {S A} (e : exn) : M S A := λ s, (Raised e, s).
Definition gets {S A} (f : S → A) : M S A := λ s, (Returned (f s), s).
Definition modify {S} (f : S → S) : M S () := λ s, (Returned (), f s).
Definition lift {S A} (o : outcome A) : M S A := λ s, (o, s).

(** [try: body / except: handler], the bare [except] that catches all. *)
Definition try_except {S A} (body handler : M S A) : M S A := λ s,
  match body s with
  | (Raised _, s') => handler s'
  | r => r
  end.

(** [for x in l: f(x)]. *)
Fixpoint for_each {S A} (l : list A) (f : A → M S ()) : M S () :=
  match l with
  | [] => mret ()
  | x :: l' => f x ;; for_each l' f
  end.

(** ** Documents and the daemon's state *)

(** A telemetry document as CouchDB delivers it. Nothing checks that it
    has a [receivers] key: [None] is a document without one. *)
Record document := {
  doc_id : string;
  doc_receivers : option json;
  doc_data : gmap string json;
  doc_time_created : json;
}.

(** [doc["receivers"].keys()]: a KeyError without the key, and an
    AttributeError when what it holds is not a dictionary. *)
Definition receivers_keys (d : document) : outcome (list string) :=
  match doc_receivers d with
  | None => Raised KeyError
  | Some (JDict receivers) => Returned (keys receivers)
  | Some _ => Raised AttributeError
  end.

(** The objects a callback reaches: the daemon's fields (as [__init__]
    creates them), the statsd counter and the document it was handed,
    which it may write to. [upload_queue] is what is queued at the moment,
    oldest first: [queue_put] adds at the end and [queue_get] takes from
    the front. *)
Record state := {
  recent_doc_ids : list string;
  recent_doc_receivers : gmap string (list string);
  upload_queue : list (gmap string json);
  good_uploads : Z;
  doc : document;
}.

Definition init (d : document) : state :=
  {| recent_doc_ids := []; recent_doc_receivers := ∅; upload_queue := [];
     good_uploads := 0; doc := d |}.

Definition set_recent_doc_ids (f : list string → list string) (s : state) : state :=
  {| recent_doc_ids := f (recent_doc_ids s);
     recent_doc_receivers := recent_doc_receivers s;
     upload_queue := upload_queue s; good_uploads := good_uploads s; doc := doc s |}.

Definition set_recent_doc_receivers
    (f : gmap string (list string) → gmap string (list string)) (s : state) : state :=
  {| recent_doc_ids := recent_doc_ids s;
     recent_doc_receivers := f (recent_doc_receivers s);
     upload_queue := upload_queue s; good_uploads := good_uploads s; doc := doc s |}.

(** [self.upload_queue.put(p)]. *)
Definition queue_put (p : gmap string json) (s : state) : state :=
  {| recent_doc_ids := recent_doc_ids s;
     recent_doc_receivers := recent_doc_receivers s;
     upload_queue := upload_queue s ++ [p];
     good_uploads := good_uploads s; doc := doc s |}.

(** [self.upload_queue.get()], as an uploader thread calls it: the oldest
    item is taken off the queue. With nothing queued the call blocks, which
    [None] stands for. *)
Definition queue_get (s : state) : option (gmap string json * state) :=
  match upload_queue s with
  | [] => None
  | p :: queue =>
      Some (p, {| recent_doc_ids := recent_doc_ids s;
                  recent_doc_receivers := recent_doc_receivers s;
                  upload_queue := queue;
                  good_uploads := good_uploads s; doc := doc s |})
  end.

(** [statsd.increment("good_uploads", n)]. *)
Definition statsd_increment (n : Z) (s : state) : state :=
  {| recent_doc_ids := recent_doc_ids s;
     recent_doc_receivers := recent_doc_receivers s;
     upload_queue := upload_queue s;
     good_uploads := good_uploads s + n; doc := doc s |}.

Definition set_data (f : gmap string json → gmap string json) (s : state) : state :=
  {| recent_doc_ids := recent_doc_ids s;
     recent_doc_receivers := recent_doc_receivers s;
     upload_queue := upload_queue s; good_uploads := good_uploads s;
     doc := {| doc_id := doc_id (doc s); doc_receivers := doc_receivers (doc s);
               doc_data := f (doc_data (doc s));
               doc_time_created := doc_time_created (doc s) |} |}.

Definition set_doc (d : document) (s : state) : state :=
  {| recent_doc_ids := recent_doc_ids s;
     recent_doc_receivers := recent_doc_receivers s;
     upload_queue := upload_queue s; good_uploads := good_uploads s; doc := d |}.

(** ** The methods of [SpaceNearUs] *)

(** [_all_floats_to_str(obj)]: the value the call returns. Dictionaries
    and lists are walked key by key, floats become [str(obj)], everything
    else is handed back as it is. *)
Fixpoint _all_floats_to_str (obj : json) : json :=
  match obj with
  | JDict d => JDict (_all_floats_to_str <$> d)
  | JList l => JList (_all_floats_to_str <$> l)
  | JFloat x => JStr (PyFloat.str x)
  | _ => obj
  end.

(** What [_all_floats_to_str] leaves in an object that someone else also
    holds: a dictionary or a list is modified in place ("Modify object in
    place then return it"), while for a float the new string goes to the
    caller only. *)
Definition written_in_place (obj : json) : json :=
  match obj with
  | JDict _ | JList _ => _all_floats_to_str obj
  | _ => obj
  end.

(** [_copy_fields(fields, data, params)]: a missing source key is skipped. *)
Definition _copy_fields (fields : list (string * string))
    (data params : gmap string json) : gmap string json :=
  foldl (λ params '(tgt, src),
           match data !! src with
           | Some v => <[tgt := v]> params
           | None => params
           end) params fields.

Definition payload_required : gmap string json :=
  {[ "lat" := JFloat PyFloat.f32_3; "lon" := JFloat PyFloat.fm64_8;
     "alt" := JInt 0; "time" := JStr "00:00:00" ]}.

Definition payload_fields : list (string * string) :=
  [("vehicle", "payload"); ("lat", "latitude"); ("lon", "longitude");
   ("alt", "altitude"); ("time", "time"); ("heading", "heading");
   ("speed", "speed"); ("seq", "sentence_id")].

Definition listener_fields : list (string * string) :=
  [("vehicle", "callsign"); ("lat", "latitude"); ("lon", "longitude");
   ("alt", "altitude"); ("speed", "speed")].

(** ["_fix_invalid" in data and data["_fix_invalid"]]. *)
Definition fix_invalid (data : gmap string json) : bool :=
  match data !! "_fix_invalid" with
  | Some v => py_truthy v
  | None => false
  end.

(** [del self.recent_doc_receivers[i]]. *)
Definition del_recent_doc_receivers (i : string) : M state () := λ s,
  match recent_doc_receivers s !! i with
  | Some _ => (Returned (), set_recent_doc_receivers (delete i) s)
  | None => (Raised KeyError, s)
  end.

(** The block under [with self.recent_lock] in [payload_telemetry]:
    [Some new_receivers] when the method goes on, [None] when it returns
    from inside the block. A set is listed by [elements], the order in
    which the model iterates over it. *)
Definition recent_block : M state (option (list string)) :=
  d ← gets doc;
  let doc_id := doc_id d in
  known ← gets (λ s, recent_doc_receivers s !! doc_id);
  match known with
  | Some old =>
      receivers ← lift (receivers_keys d);
      let new_receivers : gset string :=
        list_to_set receivers ∖ list_to_set old in
      modify (set_recent_doc_receivers (<[doc_id := receivers]>)) ;;
      if (length (elements new_receivers) =? 0)%nat then mret None
      else mret (Some (elements new_receivers))
  | None =>
      ids ← gets recent_doc_ids;
      (if (30 <? length ids)%nat then
         let remove_doc_ids := take (length ids - 30)%nat ids in
         modify (set_recent_doc_ids (λ _, drop (length ids - 30)%nat ids)) ;;
         for_each remove_doc_ids del_recent_doc_receivers
       else mret ()) ;;
      modify (set_recent_doc_ids (λ ids, ids ++ [doc_id])) ;;
      (* the id is already listed when the right-hand side is evaluated *)
      receivers ← lift (receivers_keys d);
      modify (set_recent_doc_receivers (<[doc_id := receivers]>)) ;;
      mret (Some receivers)
  end.

(** The keys of [data] that go into the residual mapping. *)
Definition used_keys : list string := payload_fields.*2 ++ ["time"].

Definition unused (data : gmap string json) : gmap string json :=
  filter (λ '(key, _), (key ∉ used_keys) ∧ (String.prefix "_" key = false)) data.

Section Methods.

(** Library code the methods call: [json.dumps], and
    [rfc3339.rfc3339_to_timestamp] read in whole seconds, [None] when it
    raises. *)
Variable json_dumps : json → string.
Variable rfc3339_to_timestamp : json → option Z.

(** The parameter set [payload_telemetry] builds before the fan-out;
    [unused_data] is the residual mapping after [_all_floats_to_str]. *)
Definition payload_params (data : gmap string json) : outcome (gmap string json) :=
  let params := _copy_fields payload_fields data payload_required in
  match params !! "time" with
  | None => Raised KeyError
  | Some time =>
      match py_replace_colons time with
      | Raised e => Raised e
      | Returned time =>
          let params := <["time" := time]> params in
          let unused_data := _all_floats_to_str (JDict (unused data)) in
          let params := <["data" := JStr (json_dumps unused_data)]> params in
          Returned (<["pass" := JStr "aurora"]> params)
      end
  end.

(** [payload_telemetry(doc)], with [doc] the document of the state. The
    result is [None] for a bare [return]. *)
Definition payload_telemetry : M state (option nat) :=
  data ← gets (λ s, doc_data (doc s));
  if fix_invalid data then mret None
  else
    r ← recent_block;
    match r with
    | None => mret None
    | Some new_receivers =>
        params ← lift (payload_params data);
        (* the values of unused_data are the objects of data *)
        modify (set_data (λ data, (written_in_place <$> unused data) ∪ data)) ;;
        for_each new_receivers (λ callsign,
          modify (queue_put (<["callsign" := JStr callsign]> params))) ;;
        modify (statsd_increment (Z.of_nat (length new_receivers))) ;;
        mret (Some (length new_receivers))
    end.

(** [data[key]], a KeyError when the key is missing. *)
Definition data_get (key : string) : M state json := λ s,
  match doc_data (doc s) !! key with
  | Some v => (Returned v, s)
  | None => (Raised KeyError, s)
  end.

(** [listener_telemetry(doc)]. *)
Definition listener_telemetry : M state (option nat) :=
  data ← gets (λ s, doc_data (doc s));
  if negb (py_truthy (default (JBool false) (data !! "chase"))) then mret None
  else
    callsign ← data_get "callsign";
    has_chase ← lift (py_in "chase" callsign);
    has_car ← (if has_chase then mret true else lift (py_in "car" callsign));
    (if negb has_chase && negb has_car then
       callsign' ← lift (py_iadd_str callsign "_chase");
       modify (set_data (<["callsign" := callsign']>))
     else mret ()) ;;
    data ← gets (λ s, doc_data (doc s));
    match data !! "speed" with
    | Some speed =>
        speed' ← lift (py_mul_float speed PyFloat.f3_6);
        modify (set_data (<["speed" := speed']>))
    | None => mret ()
    end ;;
    data ← gets (λ s, doc_data (doc s));
    let params := _copy_fields listener_fields data ∅ in
    time_created ← gets (λ s, doc_time_created (doc s));
    match rfc3339_to_timestamp time_created with
    | None => raise ValueError
    | Some created =>
        let params := <["time" := JStr (strftime_HMS created)]> params in
        let params := <["pass" := JStr "aurora"]> params in
        modify (queue_put params) ;;
        mret (Some 1%nat)
    end.

(** The two kinds of documents the filter lets through. *)
Inductive event :=
| PayloadTelemetry (d : document)
| ListenerTelemetry (d : document).

(** [couch_callback(result)]: dispatch on the document type. The state
    after it holds the document as the callback left it. *)
Definition couch_callback (ev : event) : M state (option nat) :=
  match ev with
  | PayloadTelemetry d => modify (set_doc d) ;; payload_telemetry
  | ListenerTelemetry d => modify (set_doc d) ;; listener_telemetry
  end.

(** The feed: one callback per event, whatever the previous one did. *)
Definition feed (evs : list event) (s : state) : state :=
  foldl (λ s ev, (couch_callback ev s).2) s evs.

(** What happens in the running daemon, one thing after the other: the
    feed delivers an event to the callback, or the [get] of one of the
    uploader threads returns. *)
Inductive occurrence :=
| Delivered (ev : event)
| Taken.

(** The daemon after a run of occurrences, together with the items the
    uploader threads have taken so far, oldest first. A [get] on an empty
    queue stays blocked and changes nothing. The puts of one callback are
    one occurrence: a [get] falling between two of them takes what it
    would take right after them, or stays blocked. *)
Definition daemon (occ : list occurrence) (s : state) :
    state * list (gmap string json) :=
  foldl (λ '(s, taken) o,
           match o with
           | Delivered ev => ((couch_callback ev s).2, taken)
           | Taken =>
               match queue_get s with
               | Some (p, s') => (s', taken ++ [p])
               | None => (s, taken)
               end
           end) (s, []) occ.

End Methods.

(** ** The upload worker *)

(** The calls of one turn of the worker loop. *)
Inductive action :=
| QueueGet
| PostToTrack
| LogUploadException
| TaskDone
| QSize
| LogDebug
| LogConfused.

(** What a worker has done so far. *)
Record worker := {
  turns : nat;
  trace : list (nat * action);
}.

Section Worker.

(** What each call does on each turn: return, or raise something. *)
Variable env : nat → action → option exn.

Definition perform (a : action) : M worker () := λ w,
  match env (turns w) a with
  | Some e => (Raised e, w)
  | None => (Returned (), {| turns := turns w; trace := trace w ++ [(turns w, a)] |})
  end.

(** The body of [while True] in [uploader_thread]. *)
Definition uploader_turn : M worker () :=
  try_except
    (perform QueueGet ;;
     try_except (perform PostToTrack) (perform LogUploadException) ;;
     perform TaskDone ;;
     perform QSize ;;
     perform LogDebug)
    (try_except (perform LogConfused) (mret ())).

(** [n] turns of the loop; an exception that leaves a turn ends the
    thread, and the remaining turns are not taken. *)
Fixpoint uploader_thread (n : nat) : M worker () :=
  match n with
  | O => mret ()
  | S n' =>
      uploader_turn ;;
      modify (λ w, {| turns := S (turns w); trace := trace w |}) ;;
      uploader_thread n'
  end.

End Worker.

(** ** Vocabulary of the properties *)

(** The document carries a [receivers] mapping. *)
Definition has_receivers (d : document) : Prop :=
  ∃ receivers, doc_receivers d = Some (JDict receivers).

(** The contributors of a document: its [receivers] mapping, and nobody
    when it has none. *)
Definition contributors (d : document) : gmap string json :=
  match doc_receivers d with
  | Some (JDict receivers) => receivers
  | _ => ∅
  end.

(** An event the callbacks can handle: a vehicle position, unless it is
    flagged invalid and skipped, has its [receivers] mapping. *)
Definition well_formed (ev : event) : Prop :=
  match ev with
  | PayloadTelemetry d => fix_invalid (doc_data d) = false → has_receivers d
  | ListenerTelemetry _ => True
  end.

(** The dedup state is consistent: the ids are listed once each, and the
    listed ids are the keys of the mapping. *)
Definition recent_inv (s : state) : Prop :=
  NoDup (recent_doc_ids s) ∧
  ∀ i, i ∈ recent_doc_ids s ↔ is_Some (recent_doc_receivers s !! i).

(** [l[-n:]] for a list of any length. *)
Definition last_n {A} (n : nat) (l : list A) : list A := drop (length l - n) l.

(** The ids the guarded trim of [payload_telemetry] keeps. *)
Definition trimmed (ids : list string) : list string :=
  if (30 <? length ids)%nat then last_n 30 ids else ids.

(** [del m[i]] for each [i] of [rm], in order. *)
Definition delete_all {A} (rm : list string) (m : gmap string A) : gmap string A :=
  foldl (λ m i, delete i m) m rm.

(** The mapping after the guarded trim. *)
Definition trimmed_receivers (ids : list string)
    (m : gmap string (list string)) : gmap string (list string) :=
  if (30 <? length ids)%nat then delete_all (take (length ids - 30) ids) m else m.

(** A computation keeps a relation between the state it starts in and
    the state it leaves, whether it returns or raises. *)
Definition preserves {S A} (R : relation S) (m : M S A) : Prop :=
  ∀ s, R s (m s).2.

(** What [listener_telemetry] leaves alone: the dedup cache, the counter,
    the document outside [data], every key of [data] but [callsign] and
    [speed]; and it puts at most one parameter set on the queue. *)
Definition listener_frame (s s' : state) : Prop :=
  recent_doc_ids s' = recent_doc_ids s ∧
  recent_doc_receivers s' = recent_doc_receivers s ∧
  good_uploads s' = good_uploads s ∧
  doc_id (doc s') = doc_id (doc s) ∧
  doc_receivers (doc s') = doc_receivers (doc s) ∧
  doc_time_created (doc s') = doc_time_created (doc s) ∧
  (∀ k, k ≠ "callsign" → k ≠ "speed" →
        doc_data (doc s') !! k = doc_data (doc s) !! k).

(** The queue is as it was. *)
Definition same_queue (s s' : state) : Prop := upload_queue s' = upload_queue s.

(** The queue is as it was, or one parameter set longer. *)
Definition at_most_one_put (s s' : state) : Prop :=
  upload_queue s' = upload_queue s ∨ ∃ p, upload_queue s' = upload_queue s ++ [p].

(** What the dedup step leaves alone: the queue, the counter and the
    document. *)
Definition recent_frame (s s' : state) : Prop :=
  upload_queue s' = upload_queue s ∧ good_uploads s' = good_uploads s ∧ doc s' = doc s.

(** The time attribute, when there is one, is a string (the source:
    "format of time is HH:MM:SS, checked by validation"). *)
Definition time_is_str (data : gmap string json) : Prop :=
  ∀ v, data !! "time" = Some v → ∃ t, v = JStr t.

(** A string without a colon. *)
Fixpoint colon_free (s : string) : Prop :=
  match s with
  | EmptyString => True
  | String c s' => c ≠ ":"%char ∧ colon_free s'
  end.

(** ** Documents to try the methods on *)

Definition example_dumps (j : json) : string := "{}".
Definition example_timestamp (j : json) : option Z := Some 3661.

(** A vehicle position heard by A and B. *)
Definition doc_AB : document :=
  {| doc_id := "doc1";
     doc_receivers := Some (JDict {[ "A" := JNull; "B" := JNull ]});
     doc_data := {[ "payload" := JStr "X"; "time" := JStr "07:08:09";
                    "_parsed" := JBool true ]};
     doc_time_created := JNull |}.

(** The same document when only A had heard it. *)
Definition doc_A : document :=
  {| doc_id := "doc1";
     doc_receivers := Some (JDict {[ "A" := JNull ]});
     doc_data := doc_data doc_AB;
     doc_time_created := JNull |}.

(** The dedup state after [doc_A], with [doc_AB] arriving. *)
Definition seen_A : state :=
  {| recent_doc_ids := ["doc1"]; recent_doc_receivers := {[ "doc1" := ["A"] ]};
     upload_queue := []; good_uploads := 0; doc := doc_AB |}.

(** A vehicle position that lacks the [receivers] key. *)
Definition doc_no_receivers : document :=
  {| doc_id := "doc8";
     doc_receivers := None;
     doc_data := {[ "payload" := JStr "X"; "time" := JStr "07:08:09" ]};
     doc_time_created := JNull |}.

(** A vehicle position flagged as not fixable. *)
Definition doc_invalid : document :=
  {| doc_id := "doc2";
     doc_receivers := Some (JDict {[ "A" := JNull ]});
     doc_data := {[ "payload" := JStr "X"; "_fix_invalid" := JBool true ]};
     doc_time_created := JNull |}.

(** An observer who is not a chase car, and one who is. *)
Definition doc_listener : document :=
  {| doc_id := "doc3"; doc_receivers := None;
     doc_data := {[ "callsign" := JStr "bob"; "latitude" := JInt 52 ]};
     doc_time_created := JStr "2012-01-01T01:01:01Z" |}.

Definition doc_chaser : document :=
  {| doc_id := "doc4"; doc_receivers := None;
     doc_data := {[ "callsign" := JStr "bob"; "chase" := JBool true;
                    "latitude" := JInt 52 ]};
     doc_time_created := JStr "2012-01-01T01:01:01Z" |}.

(** The vehicle position number [n], heard by A. *)
Definition numbered_doc (n : nat) : document :=
  {| doc_id := "doc-" +:+ pretty n;
     doc_receivers := Some (JDict {[ "A" := JNull ]});
     doc_data := {[ "payload" := JStr "X" ]};
     doc_time_created := JNull |}.

(** The first [n] of them. *)
Definition numbered_docs (n : nat) : list document := numbered_doc <$> seq 0 n.

(** A list or a dictionary: the values [_all_floats_to_str] modifies in
    place. *)
Definition is_container (v : json) : Prop :=
  match v with JDict _ | JList _ => True | _ => False end.

(** A vehicle position with a float inside a nested mapping. *)
Definition doc_nested : document :=
  {| doc_id := "doc5";
     doc_receivers := Some (JDict {[ "A" := JNull ]});
     doc_data := {[ "payload" := JStr "X";
                    "gps" := JDict {[ "hdop" := JFloat (PyFloat.Fin false 3 (-1)) ]} ]};
     doc_time_created := JNull |}.

(** A worker whose every call raises, and one whose upload raises. *)
Definition env_all_raise (turn : nat) (a : action) : option exn := Some ValueError.
Definition env_post_raises (turn : nat) (a : action) : option exn :=
  match a with PostToTrack => Some ValueError | _ => None end.

(** A computation that never raises. *)
Definition always_returns {S A} (m : M S A) : Prop :=
  ∀ s, ∃ a s', m s = (Returned a, s').

(** The worker is on the same turn. *)
Definition same_turn (w w' : worker) : Prop := turns w' = turns w.

(** The number of values in a JSON value, itself included. *)
Fixpoint json_size (j : json) : nat :=
  match j with
  | JList l => S (foldr (λ v n, json_size v + n)%nat 0%nat l)
  | JDict d => S (map_fold (λ _ v n, json_size v + n)%nat 0%nat d)
  | _ => 1
  end.

(** No float anywhere in the value. *)
Fixpoint float_free (j : json) : bool :=
  match j with
  | JFloat _ => false
  | JList l => forallb float_free l
  | JDict d => map_fold (λ _ v b, float_free v && b) true d
  | _ => true
  end.



(** *** Reading a decimal numeral

    What a reader of the tracker's side makes of the string of a float: a
    numeral [-]digits[.digits][e(+|-)digits] denotes mantissa * 10^exponent,
    the mantissa being all its digits read as one integer. *)



Definition number_of (vs : list Z) : Z := foldl (λ acc v, 10 * acc + v) 0 vs.




Definition is_digit (v : Z) : Prop := 0 ≤ v ≤ 9.



(** ** The CouchDB filter *)

(** [spacenear_filter(doc, req)], on the document as CouchDB holds it. *)
Definition spacenear_filter (doc : gmap string json) : outcome bool :=
  match doc !! "type" with
  | None => Returned false
  | Some type =>
      if is_str "listener_telemetry" type then Returned true
      else if is_str "payload_telemetry" type then
        match doc !! "data" with
        | None => Returned false
        | Some data =>
            match py_in "_parsed" data with
            | Returned true => Returned true
            | Returned false => Returned false
            | Raised e => Raised e
            end
        end
      else Returned false
  end.

(** ** More vocabulary *)

(** A parameter set of a vehicle position: it names the contributor. *)
Definition has_callsign (p : gmap string json) : bool :=
  bool_decide (is_Some (p !! "callsign")).

(** From [s] to [s'] the queue has only grown, and the counter has gone
    up by the number of vehicle parameter sets added. *)
Definition counted (s s' : state) : Prop :=
  ∃ added,
    upload_queue s' = upload_queue s ++ added ∧
    good_uploads s' = good_uploads s + Z.of_nat (length (filter has_callsign added)).

(** The names a parameter set may carry. *)
Definition tracker_keys : gset string :=
  {[ "vehicle"; "lat"; "lon"; "alt"; "time"; "heading"; "speed"; "seq";
     "data"; "pass"; "callsign" ]}.

(** The callsign [listener_telemetry] leaves: marked as a chase car
    unless it already reads as one. *)
Definition marked (callsign : string) : string :=
  if contains "chase" callsign || contains "car" callsign then callsign
  else (callsign +:+ "_chase").


(** A vehicle position whose time is a number. *)
Definition doc_bad_time : document :=
  {| doc_id := "doc7";
     doc_receivers := Some (JDict {[ "A" := JNull ]});
     doc_data := {[ "payload" := JStr "X"; "time" := JInt 70809 ]};
     doc_time_created := JNull |}.

(** A worker whose queue hands out items and whose log fails on turn 3. *)
Definition env_post_and_log_raise (turn : nat) (a : action) : option exn :=
  match a with
  | PostToTrack | LogUploadException => if (turn =? 3)%nat then Some ValueError else None
  | _ => None
  end.

(** What holds of the outcome and the final state of a computation
    started in [s]. *)
Definition post {S A} (m : M S A) (s : S) (Q : outcome A → S → Prop) : Prop :=
  Q (m s).1 (m s).2.

(** The events a run of occurrences delivers, in order. *)
Definition delivered (occ : list occurrence) : list event :=
  omap (λ o, match o with Delivered ev => Some ev | Taken => None end) occ.

(** The state with the items [q] back at the front of the queue. *)
Definition queue_unget (q : list (gmap string json)) (s : state) : state :=
  {| recent_doc_ids := recent_doc_ids s;
     recent_doc_receivers := recent_doc_receivers s;
     upload_queue := q ++ upload_queue s;
     good_uploads := good_uploads s; doc := doc s |}.

(** A computation that does not depend on what is queued: with more items
    at the front of the queue it does the same, and leaves them there. *)
Definition queue_blind {A} (m : M state A) : Prop :=
  ∀ q s, m (queue_unget q s) = ((m s).1, queue_unget q (m s).2).
(** * Properties *)

(** ** Running the monad *)

Lemma bind_run {S A B} (m : M S A) (f : A → M S B) (s : S) :
  (m ≫= f) s =
  match m s with
  | (Returned a, s') => f a s'
  | (Raised e, s') => (Raised e, s')
  end.
Proof. reflexivity. Qed.

Lemma for_each_modify {S A} (l : list A) (f : A → S → S) (s : S) :
  for_each l (λ x, modify (f x)) s = (Returned (), foldl (λ s x, f x s) s l).
Proof.
  revert s. induction l as [|x l IH]; intros s; [done|].
  cbn [for_each]. rewrite bind_run. cbn. apply IH.
Qed.

(** ** Running a method branch by branch *)

Lemma post_bind {S A B} (m : M S A) (f : A → M S B) (s : S) (Q : outcome B → S → Prop) :
  post m s (λ r s', match r with
                    | Returned a => post (f a) s' Q
                    | Raised e => Q (Raised e) s'
                    end) →
  post (m ≫= f) s Q.
Proof. unfold post. rewrite bind_run. by destruct (m s) as [[a|e] s']. Qed.

Lemma post_ret {S A} (a : A) (s : S) (Q : outcome A → S → Prop) :
  Q (Returned a) s → post (mret a) s Q.
Proof. done. Qed.

Lemma post_gets {S A} (f : S → A) (s : S) (Q : outcome A → S → Prop) :
  Q (Returned (f s)) s → post (gets f) s Q.
Proof. done. Qed.

Lemma post_modify {S} (f : S → S) (s : S) (Q : outcome () → S → Prop) :
  Q (Returned ()) (f s) → post (modify f) s Q.
Proof. done. Qed.

Lemma post_raise {S A} (e : exn) (s : S) (Q : outcome A → S → Prop) :
  Q (Raised e) s → post (raise e) s Q.
Proof. done. Qed.

Lemma post_lift {S A} (o : outcome A) (s : S) (Q : outcome A → S → Prop) :
  Q o s → post (lift o) s Q.
Proof. done. Qed.

Lemma post_data_get (key : string) (s : state) (Q : outcome json → state → Prop) :
  match doc_data (doc s) !! key with
  | Some v => Q (Returned v) s
  | None => Q (Raised KeyError) s
  end →
  post (data_get key) s Q.
Proof. unfold post, data_get. by destruct (_ !! _). Qed.

Lemma post_run {S A} (m : M S A) (s : S) (r : outcome A) (s' : S) :
  post m s (λ r0 s0, (r0, s0) = (r, s')) → m s = (r, s').
Proof. unfold post. by destruct (m s). Qed.

Ltac post_step :=
  lazymatch goal with
  | |- post (_ ≫= _) _ _ => apply post_bind
  | |- post (mret _) _ _ => apply post_ret; cbv beta iota
  | |- post (gets _) _ _ => apply post_gets; cbv beta iota
  | |- post (modify _) _ _ => apply post_modify; cbv beta iota
  | |- post (raise _) _ _ => apply post_raise; cbv beta iota
  | |- post (data_get _) _ _ => apply post_data_get
  | |- post (lift ?o) _ _ => apply post_lift; destruct o eqn:?; cbv beta iota
  | |- post (match ?x with _ => _ end) _ _ => destruct x eqn:?
  | |- match ?x with _ => _ end => destruct x eqn:?
  end.


(** ** Dictionary keys *)

Lemma keys_NoDup {A} (d : gmap string A) : NoDup (keys d).
Proof. apply NoDup_fst_map_to_list. Qed.

Lemma keys_dom {A} (d : gmap string A) : list_to_set (keys d) =@{gset string} dom d.
Proof.
  apply set_eq. intros i. rewrite elem_of_list_to_set, elem_of_dom.
  unfold keys. rewrite list_elem_of_fmap. split.
  - intros [[k v] [-> Hkv]]. apply elem_of_map_to_list in Hkv. eauto.
  - intros [v Hv]. exists (i, v). split; [done|]. by apply elem_of_map_to_list.
Qed.

Lemma keys_length {A} (d : gmap string A) : length (keys d) = size d.
Proof. unfold keys. rewrite length_fmap. apply length_map_to_list. Qed.

(** ** The dedup cache *)

Lemma lookup_delete_all {A} (rm : list string) (m : gmap string A) i :
  delete_all rm m !! i = if bool_decide (i ∈ rm) then None else m !! i.
Proof.
  unfold delete_all. revert m. induction rm as [|j rm IH]; intros m; cbn.
  - by rewrite bool_decide_eq_false_2 by set_solver.
  - rewrite IH. destruct (decide (i = j)) as [->|Hne].
    + rewrite lookup_delete_eq, (bool_decide_eq_true_2 (j ∈ j :: rm)) by set_solver.
      by destruct (bool_decide (j ∈ rm)).
    + rewrite lookup_delete_ne by done.
      destruct (decide (i ∈ rm)) as [Hi|Hi].
      * by rewrite !bool_decide_eq_true_2 by set_solver.
      * by rewrite !bool_decide_eq_false_2 by set_solver.
Qed.

Lemma for_each_del (rm : list string) (s : state) :
  NoDup rm →
  (∀ i, i ∈ rm → is_Some (recent_doc_receivers s !! i)) →
  for_each rm del_recent_doc_receivers s =
  (Returned (), set_recent_doc_receivers (delete_all rm) s).
Proof.
  revert s. induction rm as [|j rm IH]; intros s Hnd Hin.
  - by destruct s.
  - apply NoDup_cons in Hnd as [Hj Hnd].
    cbn [for_each]. rewrite bind_run. unfold del_recent_doc_receivers at 1.
    destruct (Hin j) as [v Hv]; [set_solver|]. rewrite Hv.
    rewrite IH; [by destruct s|done|].
    intros i Hi. cbn. rewrite lookup_delete_ne by set_solver. apply Hin. set_solver.
Qed.

Lemma receivers_keys_ok (d : document) :
  has_receivers d → receivers_keys d = Returned (keys (contributors d)).
Proof. intros [receivers Hd]. unfold receivers_keys, contributors. by rewrite Hd. Qed.

Lemma post_for_each_del (rm : list string) (s : state) (Q : outcome () → state → Prop) :
  NoDup rm →
  (∀ i, i ∈ rm → is_Some (recent_doc_receivers s !! i)) →
  Q (Returned ()) (set_recent_doc_receivers (delete_all rm) s) →
  post (for_each rm del_recent_doc_receivers) s Q.
Proof. intros Hnd Hin HQ. unfold post. by rewrite for_each_del. Qed.

(** A first-seen id: trim, record the id, store the contributors, and
    hand all of them on. *)
Lemma recent_block_new (s : state) :
  recent_inv s →
  has_receivers (doc s) →
  recent_doc_receivers s !! doc_id (doc s) = None →
  recent_block s =
  (Returned (Some (keys (contributors (doc s)))),
   {| recent_doc_ids := trimmed (recent_doc_ids s) ++ [doc_id (doc s)];
      recent_doc_receivers :=
        <[doc_id (doc s) := keys (contributors (doc s))]>
          (trimmed_receivers (recent_doc_ids s) (recent_doc_receivers s));
      upload_queue := upload_queue s; good_uploads := good_uploads s;
      doc := doc s |}).
Proof.
  intros [Hnd Hdom] Hrec%receivers_keys_ok Hnone. apply post_run.
  unfold recent_block, trimmed, trimmed_receivers.
  do 4 post_step. rewrite Hnone. do 3 post_step.
  destruct (30 <? length (recent_doc_ids s))%nat eqn:Hlen.
  - post_step. post_step. apply post_for_each_del.
    + rewrite <- (take_drop (length (recent_doc_ids s) - 30) (recent_doc_ids s)) in Hnd.
      by apply NoDup_app in Hnd as [? _].
    + intros i Hi. cbn. apply Hdom.
      rewrite <- (take_drop (length (recent_doc_ids s) - 30) (recent_doc_ids s)).
      set_solver.
    + do 3 post_step. apply post_lift. rewrite Hrec. by repeat post_step.
  - do 4 post_step. apply post_lift. rewrite Hrec. by repeat post_step.
Qed.

(** A tracked id: the new contributors are the difference, and the
    stored contributors are replaced. *)
Lemma recent_block_known (s : state) (old : list string) :
  has_receivers (doc s) →
  recent_doc_receivers s !! doc_id (doc s) = Some old →
  let new_receivers :=
    elements (list_to_set (keys (contributors (doc s))) ∖ list_to_set old : gset string) in
  recent_block s =
  (Returned (if (length new_receivers =? 0)%nat then None else Some new_receivers),
   set_recent_doc_receivers
     (<[doc_id (doc s) := keys (contributors (doc s))]>) s).
Proof.
  intros Hrec%receivers_keys_ok Hold new_receivers. apply post_run.
  unfold recent_block. do 4 post_step. rewrite Hold. post_step.
  apply post_lift. rewrite Hrec. do 2 post_step. fold new_receivers.
  destruct (length new_receivers =? 0)%nat; by post_step.
Qed.



Lemma elem_of_last_n (n : nat) (l : list string) i :
  NoDup l → i ∈ last_n n l ↔ i ∈ l ∧ i ∉ take (length l - n) l.
Proof.
  unfold last_n. generalize (length l - n)%nat. intros k Hnd.
  rewrite <- (take_drop k l) in Hnd.
  apply NoDup_app in Hnd as (_ & Hdisj & _).
  assert (i ∈ l ↔ i ∈ take k l ∨ i ∈ drop k l) as ->.
  { by rewrite <- elem_of_app, take_drop. }
  naive_solver.
Qed.

Lemma trimmed_NoDup (ids : list string) : NoDup ids → NoDup (trimmed ids).
Proof.
  intros Hnd. unfold trimmed, last_n. destruct (30 <? length ids)%nat; [|done].
  rewrite <- (take_drop (length ids - 30) ids) in Hnd.
  by apply NoDup_app in Hnd as (_ & _ & ?).
Qed.

Lemma trimmed_consistent (s : state) i :
  recent_inv s →
  i ∈ trimmed (recent_doc_ids s) ↔
  is_Some (trimmed_receivers (recent_doc_ids s) (recent_doc_receivers s) !! i).
Proof.
  intros [Hnd Hdom]. unfold trimmed, trimmed_receivers.
  destruct (30 <? length (recent_doc_ids s))%nat; [|apply Hdom].
  rewrite elem_of_last_n, lookup_delete_all by done.
  case_bool_decide as Hi.
  - split; [tauto|]. by intros [? ?].
  - rewrite Hdom. tauto.
Qed.

Lemma trimmed_subseteq (ids : list string) : trimmed ids ⊆ ids.
Proof.
  unfold trimmed, last_n. destruct (30 <? length ids)%nat; [|done].
  intros i Hi. rewrite <- (take_drop (length ids - 30) ids). set_solver.
Qed.

(** The dedup step keeps the state consistent. *)
Lemma recent_block_inv (s : state) :
  has_receivers (doc s) → recent_inv s → recent_inv (recent_block s).2.
Proof.
  intros Hrec Hinv.
  destruct (recent_doc_receivers s !! doc_id (doc s)) as [old|] eqn:Hid.
  - rewrite (recent_block_known s old Hrec Hid). destruct Hinv as [Hnd Hdom].
    split; [done|]. intros i. cbn. rewrite Hdom.
    destruct (decide (i = doc_id (doc s))) as [->|Hne].
    + rewrite lookup_insert_eq, Hid. split; eauto.
    + by rewrite lookup_insert_ne.
  - rewrite (recent_block_new s Hinv Hrec Hid). pose proof Hinv as [Hnd Hdom]. split; cbn.
    + apply NoDup_app. split; [by apply trimmed_NoDup|]. split; [|apply NoDup_singleton].
      intros i Hi ->%list_elem_of_singleton. apply trimmed_subseteq, Hdom in Hi.
      rewrite Hid in Hi. by destruct Hi.
    + intros i. rewrite elem_of_app, list_elem_of_singleton.
      destruct (decide (i = doc_id (doc s))) as [->|Hne].
      * rewrite lookup_insert_eq. split; eauto.
      * rewrite lookup_insert_ne by done. rewrite trimmed_consistent by done. tauto.
Qed.

(** ** [payload_telemetry], step by step *)

Section Payload.

Variable json_dumps : json → string.

(** The state after the fan-out of [params] to [new_receivers]. *)
Lemma fan_out_run (params : gmap string json) (new_receivers : list string) (s : state) :
  for_each new_receivers
    (λ callsign, modify (queue_put (<["callsign" := JStr callsign]> params))) s =
  (Returned (),
   {| recent_doc_ids := recent_doc_ids s;
      recent_doc_receivers := recent_doc_receivers s;
      upload_queue :=
        upload_queue s ++ ((λ c, <["callsign" := JStr c]> params) <$> new_receivers);
      good_uploads := good_uploads s; doc := doc s |}).
Proof.
  revert s. induction new_receivers as [|c l IH]; intros s.
  - cbn. rewrite app_nil_r. by destruct s.
  - cbn [for_each]. rewrite bind_run. cbn [modify]. rewrite IH. cbn.
    by rewrite <- app_assoc.
Qed.

Lemma payload_telemetry_run (s : state) :
  payload_telemetry json_dumps s =
  if fix_invalid (doc_data (doc s)) then (Returned None, s)
  else
    match recent_block s with
    | (Raised e, s1) => (Raised e, s1)
    | (Returned None, s1) => (Returned None, s1)
    | (Returned (Some new_receivers), s1) =>
        match payload_params json_dumps (doc_data (doc s)) with
        | Raised e => (Raised e, s1)
        | Returned params =>
            (Returned (Some (length new_receivers)),
             {| recent_doc_ids := recent_doc_ids s1;
                recent_doc_receivers := recent_doc_receivers s1;
                upload_queue :=
                  upload_queue s1 ++
                  ((λ c, <["callsign" := JStr c]> params) <$> new_receivers);
                good_uploads := good_uploads s1 + Z.of_nat (length new_receivers);
                doc := doc (set_data (λ data,
                         (written_in_place <$> unused data) ∪ data) s1) |})
        end
    end.
Proof.
  unfold payload_telemetry. rewrite bind_run. cbn [gets].
  destruct (fix_invalid (doc_data (doc s))); [done|].
  rewrite bind_run. destruct (recent_block s) as [[[new_receivers|]|e] s1]; [|done|done].
  rewrite bind_run. unfold lift.
  destruct (payload_params json_dumps (doc_data (doc s))) as [params|e]; [|done].
  rewrite bind_run. cbn [modify]. rewrite bind_run, fan_out_run.
  reflexivity.
Qed.

End Payload.

(** ** Frames: what a computation leaves alone *)

Section Preserves.

Context {S : Type} (R : relation S) `{!PreOrder R}.

Lemma preserves_ret {A} (a : A) : preserves R (mret a).
Proof. intros s. reflexivity. Qed.

Lemma preserves_gets {A} (f : S → A) : preserves R (gets f).
Proof. intros s. reflexivity. Qed.

Lemma preserves_lift {A} (o : outcome A) : preserves R (lift o).
Proof. intros s. reflexivity. Qed.

Lemma preserves_raise {A} (e : exn) : preserves R (raise e : M S A).
Proof. intros s. reflexivity. Qed.

Lemma preserves_modify (f : S → S) : (∀ s, R s (f s)) → preserves R (modify f).
Proof. intros Hf s. apply Hf. Qed.

Lemma preserves_bind {A B} (m : M S A) (f : A → M S B) :
  preserves R m → (∀ a, preserves R (f a)) → preserves R (m ≫= f).
Proof.
  intros Hm Hf s. rewrite bind_run. specialize (Hm s).
  destruct (m s) as [[a|e] s']; [|done].
  etrans; [exact Hm|apply Hf].
Qed.

Lemma preserves_try_except {A} (body handler : M S A) :
  preserves R body → preserves R handler → preserves R (try_except body handler).
Proof.
  intros Hb Hh s. unfold try_except. specialize (Hb s).
  destruct (body s) as [[a|e] s']; [done|].
  etrans; [exact Hb|apply Hh].
Qed.

Lemma preserves_for_each {A} (l : list A) (f : A → M S ()) :
  (∀ x, preserves R (f x)) → preserves R (for_each l f).
Proof.
  intros Hf. induction l as [|x l IH]; cbn [for_each].
  - apply preserves_ret.
  - by apply preserves_bind.
Qed.

End Preserves.

Ltac preserves_step :=
  first
    [ apply preserves_ret; solve [typeclasses eauto]
    | apply preserves_gets; solve [typeclasses eauto]
    | apply preserves_lift; solve [typeclasses eauto]
    | apply preserves_raise; solve [typeclasses eauto]
    | apply preserves_bind; [typeclasses eauto| |intros ?]
    | match goal with
      | |- preserves _ (match ?x with _ => _ end) => destruct x
      end ].

(** ** [listener_telemetry]: what it may touch *)

#[local] Instance listener_frame_preorder : PreOrder listener_frame.
Proof.
  split.
  - intros s. by repeat split.
  - intros s1 s2 s3 (?&?&?&?&?&?&H12) (?&?&?&?&?&?&H23).
    repeat split; try congruence.
    intros k ? ?. by rewrite H23, H12.
Qed.

Lemma listener_frame_queue_put p s : listener_frame s (queue_put p s).
Proof. by repeat split. Qed.

Lemma listener_frame_set_callsign v s :
  listener_frame s (set_data (<["callsign" := v]>) s).
Proof. repeat split; try done. intros k ? ?. cbn. by rewrite lookup_insert_ne. Qed.

Lemma listener_frame_set_speed v s :
  listener_frame s (set_data (<["speed" := v]>) s).
Proof. repeat split; try done. intros k ? ?. cbn. by rewrite lookup_insert_ne. Qed.

Lemma listener_telemetry_frame (rfc3339_to_timestamp : json → option Z) :
  preserves listener_frame (listener_telemetry rfc3339_to_timestamp).
Proof.
  unfold listener_telemetry. repeat preserves_step.
  - intros s. unfold data_get. by destruct (_ !! _).
  - apply preserves_modify, listener_frame_set_callsign.
  - apply preserves_modify, listener_frame_set_speed.
  - apply preserves_modify, listener_frame_queue_put.
Qed.

#[local] Instance same_queue_preorder : PreOrder same_queue.
Proof. split; unfold same_queue; [done|congruence]. Qed.

Lemma preserves_then_put {A B} (m : M state A) (f : A → M state B) :
  preserves same_queue m →
  (∀ a, preserves at_most_one_put (f a)) →
  preserves at_most_one_put (m ≫= f).
Proof.
  intros Hm Hf s. rewrite bind_run. specialize (Hm s).
  destruct (m s) as [[a|e] s']; cbn in *.
  - specialize (Hf a s'). unfold at_most_one_put, same_queue in *.
    by rewrite Hm in Hf.
  - by left.
Qed.

Lemma same_queue_set_data f : preserves same_queue (modify (set_data f)).
Proof. by intros s. Qed.

Lemma listener_telemetry_puts (rfc3339_to_timestamp : json → option Z) :
  preserves at_most_one_put (listener_telemetry rfc3339_to_timestamp).
Proof.
  unfold listener_telemetry.
  repeat first
    [ match goal with
      | |- preserves at_most_one_put (modify (queue_put _) ≫= _) =>
          intros s; right; by eexists
      | |- preserves at_most_one_put (match ?x with _ => _ end) => destruct x
      end
    | apply preserves_then_put; [|intros ?] ].
  all: try (intros s; by left).
  all: repeat preserves_step; try apply same_queue_set_data.
  intros s. unfold data_get. by destruct (_ !! _).
Qed.

(** ** The consistency of the dedup state along the feed *)

Lemma recent_inv_ext (s s' : state) :
  recent_doc_ids s' = recent_doc_ids s →
  recent_doc_receivers s' = recent_doc_receivers s →
  recent_inv s → recent_inv s'.
Proof. unfold recent_inv. by intros -> ->. Qed.

Lemma payload_telemetry_inv (json_dumps : json → string) (s : state) :
  (fix_invalid (doc_data (doc s)) = false → has_receivers (doc s)) →
  recent_inv s → recent_inv (payload_telemetry json_dumps s).2.
Proof.
  intros Hrec Hinv. rewrite payload_telemetry_run.
  destruct (fix_invalid _); [done|].
  pose proof (recent_block_inv s (Hrec eq_refl) Hinv) as Hinv'.
  destruct (recent_block s) as [[[new_receivers|]|e] s1]; cbn in *; try done.
  destruct (payload_params _ _); cbn; [|done].
  by apply (recent_inv_ext s1).
Qed.

Lemma listener_telemetry_inv (rfc3339_to_timestamp : json → option Z) (s : state) :
  recent_inv s → recent_inv (listener_telemetry rfc3339_to_timestamp s).2.
Proof.
  destruct (listener_telemetry_frame rfc3339_to_timestamp s) as (?&?&_).
  by apply recent_inv_ext.
Qed.

Lemma couch_callback_inv json_dumps rfc3339_to_timestamp (ev : event) (s : state) :
  well_formed ev →
  recent_inv s →
  recent_inv (couch_callback json_dumps rfc3339_to_timestamp ev s).2.
Proof.
  intros Hev Hinv. destruct ev as [d|d]; cbn [couch_callback]; rewrite bind_run; cbn [modify].
  - by apply payload_telemetry_inv.
  - by apply listener_telemetry_inv.
Qed.

Lemma init_inv (d : document) : recent_inv (init d).
Proof. split; [constructor|]. intros i. cbn. rewrite lookup_empty. set_solver. Qed.

Lemma feed_inv json_dumps rfc3339_to_timestamp (evs : list event) (s : state) :
  Forall well_formed evs →
  recent_inv s → recent_inv (feed json_dumps rfc3339_to_timestamp evs s).
Proof.
  revert s. induction evs as [|ev evs IH]; intros s Hevs Hinv; [done|].
  apply Forall_cons in Hevs as [Hev Hevs].
  cbn. apply IH; [done|]. by apply couch_callback_inv.
Qed.

(** C3, as the code has it. When every vehicle position the feed delivers
    has its [receivers] mapping (one flagged invalid is skipped and need
    not), then however many events of either kind have been handled, and
    whether their callbacks returned or raised, the ids in
    [recent_doc_ids] are exactly the keys of [recent_doc_receivers] (and
    no id is listed twice). *)
Theorem recent_ids_are_receivers_keys json_dumps rfc3339_to_timestamp
    (evs : list event) (d : document) (n : nat) :
  Forall well_formed evs →
  let s := feed json_dumps rfc3339_to_timestamp (take n evs) (init d) in
  list_to_set (recent_doc_ids s) =@{gset string} dom (recent_doc_receivers s) ∧
  NoDup (recent_doc_ids s).
Proof.
  intros Hevs s.
  destruct (feed_inv json_dumps rfc3339_to_timestamp (take n evs) (init d)
              (Forall_take _ n _ Hevs) (init_inv d)) as [Hnd Hdom].
  split; [|done]. apply set_eq. intros i.
  by rewrite elem_of_list_to_set, elem_of_dom.
Qed.

(** Two vehicle positions, one of them flagged invalid, and an observer. *)
Lemma recent_ids_witness :
  let s := feed example_dumps example_timestamp
             [PayloadTelemetry doc_AB; PayloadTelemetry doc_invalid;
              ListenerTelemetry doc_chaser] (init doc_AB) in
  list_to_set (recent_doc_ids s) =@{gset string} dom (recent_doc_receivers s) ∧
  NoDup (recent_doc_ids s).
Proof.
  apply (recent_ids_are_receivers_keys example_dumps example_timestamp
           [PayloadTelemetry doc_AB; PayloadTelemetry doc_invalid;
            ListenerTelemetry doc_chaser] doc_AB 3).
  repeat constructor; cbn; try done. intros _. by eexists.
Defined.

(** C3 as it is written fails on a vehicle position that has no
    [receivers]: its id is listed before the contributors are looked up,
    the lookup raises, and the id stays listed with nothing stored for it. *)
Lemma listed_without_receivers :
  let s := feed example_dumps example_timestamp
             [PayloadTelemetry doc_no_receivers] (init doc_AB) in
  recent_doc_ids s = ["doc8"] ∧
  recent_doc_receivers s = ∅ ∧
  list_to_set (recent_doc_ids s) ≠@{gset string} dom (recent_doc_receivers s).
Proof.
  cbn zeta. split; [vm_compute; reflexivity|]. split; [vm_compute; reflexivity|].
  intros Heq. apply (f_equal size) in Heq. vm_compute in Heq. discriminate Heq.
Qed.

(** ** What the dedup step leaves alone *)

#[local] Instance recent_frame_preorder : PreOrder recent_frame.
Proof.
  split; unfold recent_frame; [done|].
  intros s1 s2 s3 (?&?&?) (?&?&?). repeat split; congruence.
Qed.

Lemma recent_block_frame : preserves recent_frame recent_block.
Proof.
  unfold recent_block. repeat preserves_step; try (by apply preserves_modify).
  apply preserves_for_each; [apply _|]. intros i s.
  unfold del_recent_doc_receivers. by destruct (_ !! _).
Qed.

(** ** The parameter set *)

Lemma copy_fields_app (f1 f2 : list (string * string)) (data params : gmap string json) :
  _copy_fields (f1 ++ f2) data params = _copy_fields f2 data (_copy_fields f1 data params).
Proof. unfold _copy_fields. apply foldl_app. Qed.

Lemma copy_fields_lookup_ne (fields : list (string * string))
    (data params : gmap string json) (k : string) :
  k ∉ fields.*1 → _copy_fields fields data params !! k = params !! k.
Proof.
  revert params. induction fields as [|[tgt src] fields IH]; intros params Hk; [done|].
  cbn in Hk. apply not_elem_of_cons in Hk as [Hne Hk].
  change (_copy_fields ((tgt, src) :: fields) data params)
    with (_copy_fields fields data
            (match data !! src with Some v => <[tgt := v]> params | None => params end)).
  rewrite IH by done. destruct (data !! src); [|done]. by rewrite lookup_insert_ne.
Qed.

(** The time that [payload_telemetry] reformats: the document's, or the
    default. *)
Lemma payload_copied_time (data : gmap string json) :
  _copy_fields payload_fields data payload_required !! "time" =
  Some (default (JStr "00:00:00") (data !! "time")).
Proof.
  change payload_fields with
    (take 4 payload_fields ++ [("time", "time")] ++ drop 5 payload_fields).
  rewrite !copy_fields_app.
  rewrite copy_fields_lookup_ne by (cbn; set_solver).
  unfold _copy_fields at 1. cbn [foldl].
  destruct (data !! "time") as [v|]; cbn [default].
  - by rewrite lookup_insert_eq.
  - by rewrite copy_fields_lookup_ne by (cbn; set_solver).
Qed.

Section Params.

Variable json_dumps : json → string.

Lemma payload_params_time (data : gmap string json) (t : string) :
  default (JStr "00:00:00") (data !! "time") = JStr t →
  ∃ params,
    payload_params json_dumps data = Returned params ∧
    params !! "time" = Some (JStr (remove_colons t)).
Proof.
  intros Ht. unfold payload_params. rewrite payload_copied_time, Ht. cbn.
  eexists. split; [done|].
  by rewrite !lookup_insert_ne, lookup_insert_eq by done.
Qed.

Lemma payload_params_ok (data : gmap string json) :
  time_is_str data → ∃ params, payload_params json_dumps data = Returned params.
Proof.
  intros Htime.
  assert (∃ t, default (JStr "00:00:00") (data !! "time") = JStr t) as [t Ht].
  { destruct (data !! "time") as [v|] eqn:Hv; cbn; [by apply Htime|by eexists]. }
  destruct (payload_params_time data t Ht) as (params & ? & _). by exists params.
Qed.

End Params.

Lemma remove_colons_app (a b : string) :
  remove_colons (a ++ b) = (remove_colons a ++ remove_colons b)%string.
Proof.
  induction a as [|c a IH]; [done|].
  change (String c a +:+ b) with (String c (a +:+ b)).
  cbn [remove_colons]. rewrite IH. by destruct (Ascii.eqb c ":").
Qed.

Lemma remove_colons_colon_free (a : string) : colon_free a → remove_colons a = a.
Proof.
  induction a as [|c a IH]; [done|]. intros [Hc Ha]. cbn.
  apply Ascii.eqb_neq in Hc. rewrite Hc. by rewrite IH.
Qed.

(** ** The dedup step (C1) *)

(** C1, as the code has it. In a dedup state whose listed ids are the
    keys of the stored contributors, with C the contributors of the
    arriving document (the keys of its [receivers] mapping): if its id is
    not tracked, the dedup step records the id (after the guarded trim),
    stores C and returns exactly C; if it is tracked with stored
    contributors [old], the step returns exactly C minus [old], replaces
    the stored contributors by C, and when nothing is new it returns from
    the method, which then enqueues nothing and leaves the counter alone. *)
Theorem dedup_step (json_dumps : json → string) (s : state) :
  recent_inv s →
  has_receivers (doc s) →
  let d := doc s in
  let C := keys (contributors d) in
  list_to_set C =@{gset string} dom (contributors d) ∧ NoDup C ∧
  match recent_doc_receivers s !! doc_id d with
  | None =>
      ∃ s', recent_block s = (Returned (Some C), s') ∧
            recent_doc_ids s' = trimmed (recent_doc_ids s) ++ [doc_id d] ∧
            recent_doc_receivers s' !! doc_id d = Some C
  | Some old =>
      ∃ new s',
        list_to_set new =@{gset string} dom (contributors d) ∖ list_to_set old ∧
        NoDup new ∧
        recent_block s =
          (Returned (match new with [] => None | _ => Some new end), s') ∧
        recent_doc_ids s' = recent_doc_ids s ∧
        recent_doc_receivers s' = <[doc_id d := C]> (recent_doc_receivers s) ∧
        (new = [] →
         (payload_telemetry json_dumps s).1 = Returned None ∧
         upload_queue (payload_telemetry json_dumps s).2 = upload_queue s ∧
         good_uploads (payload_telemetry json_dumps s).2 = good_uploads s)
  end.
Proof.
  intros Hinv Hrec d C. split; [apply keys_dom|]. split; [apply keys_NoDup|].
  destruct (recent_doc_receivers s !! doc_id d) as [old|] eqn:Hid.
  - pose proof (recent_block_known s old Hrec Hid) as Hrun. cbn zeta in Hrun.
    set (new := elements _) in Hrun.
    exists new, (set_recent_doc_receivers (<[doc_id d := C]>) s).
    split. { subst new. by rewrite list_to_set_elements_L, keys_dom. }
    split; [apply NoDup_elements|].
    split. { rewrite Hrun. by destruct new. }
    split; [done|]. split; [done|].
    intros Hnew. rewrite payload_telemetry_run.
    destruct (fix_invalid _); [done|].
    rewrite Hrun, Hnew. done.
  - eexists. split; [by apply recent_block_new|]. split; [done|].
    cbn. by rewrite lookup_insert_eq.
Qed.

Lemma seen_A_inv : recent_inv seen_A.
Proof.
  split; cbn.
  - apply NoDup_singleton.
  - intros i. rewrite list_elem_of_singleton. split.
    + intros ->. by rewrite lookup_singleton_eq.
    + intros [v Hv]. by apply lookup_singleton_Some in Hv as [-> _].
Qed.

(** [doc_AB] arrives first unseen, then after A alone had been stored. *)
Lemma dedup_step_witness :
  (recent_inv (init doc_AB) ∧
   ∃ s', recent_block (init doc_AB) =
         (Returned (Some (keys (contributors doc_AB))), s')) ∧
  (recent_inv seen_A ∧
   ∃ new s', list_to_set new =@{gset string} {["B"]} ∧
             recent_block seen_A =
             (Returned (match new with [] => None | _ => Some new end), s')).
Proof.
  split.
  - split; [apply init_inv|].
    destruct (dedup_step example_dumps (init doc_AB) (init_inv doc_AB)
                ltac:(by eexists))
      as (_ & _ & s' & Hrun & _).
    by exists s'.
  - split; [apply seen_A_inv|].
    destruct (dedup_step example_dumps seen_A seen_A_inv ltac:(by eexists))
      as (_ & _ & new & s' & Hnew & _ & Hrun & _).
    exists new, s'. split; [|done].
    rewrite Hnew. by vm_compute.
Defined.

(** C1 as it is written fails in a state the daemon can reach. A vehicle
    position without [receivers] leaves its id listed with nothing stored
    for it; thirty vehicle positions later the list is longer than 30, and
    the next id that is first seen, contributors and all, makes the trim
    delete what was never stored: the dedup step raises KeyError, and the
    id is neither recorded nor are its contributors stored or returned. *)
Lemma first_seen_step_raises :
  let s := feed example_dumps example_timestamp
             (PayloadTelemetry <$> doc_no_receivers :: numbered_docs 30) (init doc_AB) in
  let d := numbered_doc 30 in
  ("doc8" ∈ recent_doc_ids s ∧ recent_doc_receivers s !! "doc8" = None) ∧
  has_receivers d ∧
  recent_doc_receivers s !! doc_id d = None ∧
  (recent_block (set_doc d s)).1 = Raised KeyError ∧
  (doc_id d ∉ recent_doc_ids (recent_block (set_doc d s)).2) ∧
  recent_doc_receivers (recent_block (set_doc d s)).2 !! doc_id d = None.
Proof.
  cbn zeta. split; [split|split; [by eexists|split; [|split; [|split]]]].
  - apply (bool_decide_unpack _). vm_compute. exact I.
  - vm_compute. reflexivity.
  - vm_compute. reflexivity.
  - vm_compute. reflexivity.
  - apply (bool_decide_unpack _). vm_compute. exact I.
  - vm_compute. reflexivity.
Qed.

(** ** The fan-out (C4) *)

(** C4, as the code has it. For a vehicle position that is not flagged
    invalid and whose time, when present, is a string (the format that
    validation checks): when the dedup step yields the new
    contributors [new] (none, when it returns from the method), the call
    enqueues exactly one parameter set per new contributor, each the
    common parameter set with the contributor as [callsign], and adds
    their number to the counter as it enqueues. *)
Theorem fan_out_per_new_contributor (json_dumps : json → string) (s s1 : state)
    (r : option (list string)) :
  fix_invalid (doc_data (doc s)) = false →
  time_is_str (doc_data (doc s)) →
  recent_block s = (Returned r, s1) →
  let new := default [] r in
  let s' := (payload_telemetry json_dumps s).2 in
  ∃ params added,
    (payload_telemetry json_dumps s).1 = Returned (length <$> r) ∧
    upload_queue s' = upload_queue s ++ added ∧
    length added = length new ∧
    added = (λ c, <["callsign" := JStr c]> params) <$> new ∧
    (∀ p q, p ∈ added → q ∈ added → delete "callsign" p = delete "callsign" q) ∧
    good_uploads s' = good_uploads s + Z.of_nat (length new).
Proof.
  intros Hvalid Htime Hrun new s'.
  destruct (payload_params_ok json_dumps _ Htime) as [params Hparams].
  destruct (recent_block_frame s) as (Hq & Hg & _). rewrite Hrun in Hq, Hg. cbn in Hq, Hg.
  exists params, ((λ c, <["callsign" := JStr c]> params) <$> new).
  subst s'. rewrite payload_telemetry_run, Hvalid, Hrun.
  destruct r as [new_receivers|]; cbn [default] in new; subst new.
  - rewrite Hparams. cbn. rewrite Hq, Hg, length_fmap. repeat split; try done.
    intros p q [c [-> _]]%list_elem_of_fmap [c' [-> _]]%list_elem_of_fmap.
    by rewrite !delete_insert_eq.
  - cbn. rewrite app_nil_r, Z.add_0_r. repeat split; try done.
    intros p q Hp. by apply elem_of_nil in Hp.
Qed.

(** The scenario of the claim: [doc_AB], never seen, with contributors A
    and B. Two parameter sets are enqueued and the counter goes up by two. *)
Lemma fan_out_witness :
  let s' := (payload_telemetry example_dumps (init doc_AB)).2 in
  (payload_telemetry example_dumps (init doc_AB)).1 = Returned (Some 2%nat) ∧
  length (upload_queue s') = 2%nat ∧
  good_uploads s' = 2.
Proof.
  assert (time_is_str (doc_data doc_AB)) as Htime.
  { intros v Hv. vm_compute in Hv. injection Hv as <-. by eexists. }
  destruct (recent_block (init doc_AB)) as [[r|e] s1] eqn:Hrun;
    [|by vm_compute in Hrun].
  destruct (fan_out_per_new_contributor example_dumps (init doc_AB) s1 r
              eq_refl Htime Hrun)
    as (params & added & Hret & Hq & Hlen & _ & _ & Hg).
  assert (r = Some (keys (contributors doc_AB))) as ->.
  { vm_compute in Hrun. by injection Hrun as <- _. }
  cbn zeta. rewrite Hret, Hq, Hg, length_app, Hlen. by vm_compute.
Defined.

(** C4 as it is written fails on a vehicle position whose time is a
    number: the dedup step yields one new contributor, A, and then
    [.replace] raises, with nothing enqueued and nothing counted. *)
Lemma fan_out_stopped_by_bad_time :
  (recent_block (init doc_bad_time)).1 = Returned (Some ["A"]) ∧
  (payload_telemetry example_dumps (init doc_bad_time)).1 = Raised AttributeError ∧
  upload_queue (payload_telemetry example_dumps (init doc_bad_time)).2 = [] ∧
  good_uploads (payload_telemetry example_dumps (init doc_bad_time)).2 = 0.
Proof. repeat split; vm_compute; reflexivity. Qed.

(** ** Skipped events (C7) *)

(** C7. A vehicle position whose data carries a truthy [_fix_invalid]
    leaves the daemon as it was (and so enqueues nothing), as does an
    observer position whose [chase] is missing or false; and whatever an
    observer position holds, at most one parameter set is enqueued for it. *)
Theorem skipped_events_enqueue_nothing (json_dumps : json → string)
    (rfc3339_to_timestamp : json → option Z) (s : state) :
  (∀ v, doc_data (doc s) !! "_fix_invalid" = Some v → py_truthy v = true →
        payload_telemetry json_dumps s = (Returned None, s)) ∧
  (py_truthy (default (JBool false) (doc_data (doc s) !! "chase")) = false →
   listener_telemetry rfc3339_to_timestamp s = (Returned None, s)) ∧
  at_most_one_put s (listener_telemetry rfc3339_to_timestamp s).2.
Proof.
  split; [|split].
  - intros v Hv Htrue. rewrite payload_telemetry_run. unfold fix_invalid.
    by rewrite Hv, Htrue.
  - intros Hchase. unfold listener_telemetry. rewrite bind_run. cbn [gets].
    by rewrite Hchase.
  - apply listener_telemetry_puts.
Qed.

Lemma skipped_events_witness :
  payload_telemetry example_dumps (init doc_invalid) = (Returned None, init doc_invalid) ∧
  listener_telemetry example_timestamp (init doc_listener) =
    (Returned None, init doc_listener) ∧
  at_most_one_put (init doc_chaser)
    (listener_telemetry example_timestamp (init doc_chaser)).2.
Proof.
  split; [|split].
  - exact (proj1 (skipped_events_enqueue_nothing example_dumps example_timestamp
                    (init doc_invalid)) (JBool true) eq_refl eq_refl).
  - exact (proj1 (proj2 (skipped_events_enqueue_nothing example_dumps example_timestamp
                           (init doc_listener))) eq_refl).
  - exact (proj2 (proj2 (skipped_events_enqueue_nothing example_dumps example_timestamp
                           (init doc_chaser)))).
Defined.

(** ** The time parameter (C8) *)

(** C8. When the time attribute of a vehicle position is the string [t],
    or is absent and [t] is the default ["00:00:00"], the parameter set
    carries [t] without its colons as [time], and so does every parameter
    set the call enqueues; a time [HH:MM:SS] becomes [HHMMSS], in
    particular ["07:08:09"] becomes ["070809"] and the default
    ["000000"]. *)
Theorem time_without_colons (json_dumps : json → string) (s : state) (t : string) :
  doc_data (doc s) !! "time" = Some (JStr t) ∨
  (doc_data (doc s) !! "time" = None ∧ t = "00:00:00") →
  (∃ params,
     payload_params json_dumps (doc_data (doc s)) = Returned params ∧
     params !! "time" = Some (JStr (remove_colons t))) ∧
  (∀ added p,
     upload_queue (payload_telemetry json_dumps s).2 = upload_queue s ++ added →
     p ∈ added → p !! "time" = Some (JStr (remove_colons t))) ∧
  (∀ hh mm ss, colon_free hh → colon_free mm → colon_free ss →
     t = (hh +:+ ":" +:+ mm +:+ ":" +:+ ss) → remove_colons t = hh +:+ mm +:+ ss) ∧
  remove_colons "07:08:09" = "070809" ∧
  remove_colons "00:00:00" = "000000".
Proof.
  intros Ht.
  assert (default (JStr "00:00:00") (doc_data (doc s) !! "time") = JStr t) as Hdef.
  { destruct Ht as [->|[-> ->]]; done. }
  destruct (payload_params_time json_dumps _ t Hdef) as (params & Hparams & Htime).
  split; [by exists params|]. split; [|split; [|done]].
  - intros added p. rewrite payload_telemetry_run.
    destruct (recent_block_frame s) as (Hq & _).
    destruct (fix_invalid _).
    { cbn. rewrite <- (app_nil_r (upload_queue s)) at 1.
      intros <-%app_inv_head Hp. by apply elem_of_nil in Hp. }
    destruct (recent_block s) as [[[new_receivers|]|e] s1]; cbn in Hq |- *.
    + rewrite Hparams. cbn. rewrite Hq. intros <-%app_inv_head.
      intros [c [-> _]]%list_elem_of_fmap. by rewrite lookup_insert_ne.
    + rewrite Hq. rewrite <- (app_nil_r (upload_queue s)) at 1.
      intros <-%app_inv_head Hp. by apply elem_of_nil in Hp.
    + rewrite Hq. rewrite <- (app_nil_r (upload_queue s)) at 1.
      intros <-%app_inv_head Hp. by apply elem_of_nil in Hp.
  - intros hh mm ss Hhh Hmm Hss ->.
    rewrite !remove_colons_app. cbn [remove_colons]. cbn.
    by rewrite !remove_colons_colon_free.
Qed.

Lemma time_without_colons_witness :
  ∃ params,
    payload_params example_dumps (doc_data doc_AB) = Returned params ∧
    params !! "time" = Some (JStr "070809").
Proof.
  exact (proj1 (time_without_colons example_dumps (init doc_AB) "07:08:09"
                  (or_introl eq_refl))).
Defined.

(** ** The window of the dedup cache (C2) *)

Lemma last_n_short {A} (n : nat) (l : list A) : (length l ≤ n)%nat → last_n n l = l.
Proof. intros Hl. unfold last_n. by replace (length l - n)%nat with 0%nat by lia. Qed.

Lemma last_n_length {A} (n : nat) (l : list A) :
  length (last_n n l) = Nat.min n (length l).
Proof. unfold last_n. rewrite length_drop. lia. Qed.

(** Trimming to 30 before the append keeps the last 31 ids seen. *)
Lemma trimmed_snoc (l : list string) (x : string) :
  trimmed (last_n 31 l) ++ [x] = last_n 31 (l ++ [x]).
Proof.
  unfold trimmed. rewrite last_n_length.
  destruct (decide (length l ≤ 30)%nat) as [Hl|Hl].
  - replace (30 <? Nat.min 31 (length l))%nat with false
      by (symmetry; apply Nat.ltb_ge; lia).
    rewrite !last_n_short; [done|rewrite length_app; cbn; lia|lia].
  - replace (30 <? Nat.min 31 (length l))%nat with true
      by (symmetry; apply Nat.ltb_lt; lia).
    unfold last_n. rewrite length_drop, drop_drop, length_app. cbn [length].
    rewrite drop_app_le by lia. f_equal. f_equal. lia.
Qed.

Lemma payload_telemetry_recent (json_dumps : json → string) (s : state) :
  fix_invalid (doc_data (doc s)) = false →
  recent_doc_ids (payload_telemetry json_dumps s).2 = recent_doc_ids (recent_block s).2 ∧
  recent_doc_receivers (payload_telemetry json_dumps s).2 =
    recent_doc_receivers (recent_block s).2.
Proof.
  intros Hvalid. rewrite payload_telemetry_run, Hvalid.
  destruct (recent_block s) as [[[new_receivers|]|e] s1]; cbn; try done.
  by destruct (payload_params _ _).
Qed.

Lemma feed_window json_dumps rfc3339_to_timestamp (ds : list document)
    (seen : list string) (s : state) :
  recent_inv s →
  recent_doc_ids s = last_n 31 seen →
  NoDup (seen ++ (doc_id <$> ds)) →
  (∀ d, d ∈ ds → fix_invalid (doc_data d) = false) →
  (∀ d, d ∈ ds → has_receivers d) →
  recent_doc_ids (feed json_dumps rfc3339_to_timestamp (PayloadTelemetry <$> ds) s) =
  last_n 31 (seen ++ (doc_id <$> ds)).
Proof.
  revert seen s. induction ds as [|d ds IH]; intros seen s Hinv Hids Hnd Hvalid Hrec.
  - cbn. by rewrite app_nil_r.
  - rewrite fmap_cons in Hnd. rewrite !fmap_cons.
    change (feed json_dumps rfc3339_to_timestamp (PayloadTelemetry d :: ?evs) s)
      with (feed json_dumps rfc3339_to_timestamp evs
              (couch_callback json_dumps rfc3339_to_timestamp (PayloadTelemetry d) s).2).
    rewrite (cons_middle (doc_id d)), app_assoc in Hnd |- *.
    assert (has_receivers d) as Hd by (apply Hrec; set_solver).
    apply IH; [apply couch_callback_inv; [by intros _|done]| |done|set_solver|set_solver].
    cbn [couch_callback]. rewrite bind_run. cbn [modify].
    set (s0 := set_doc d s).
    destruct (payload_telemetry_recent json_dumps s0) as [-> _]; [set_solver|].
    assert (recent_doc_receivers s0 !! doc_id (doc s0) = None) as Hnew.
    { destruct (recent_doc_receivers s0 !! doc_id (doc s0)) eqn:Hid; [|done].
      exfalso. apply NoDup_app in Hnd as [Hnd _]. apply NoDup_app in Hnd as (_ & Hnd & _).
      apply (Hnd (doc_id d)); [|set_solver].
      assert (doc_id d ∈ recent_doc_ids s) as Hin by (apply Hinv; by eexists).
      rewrite Hids in Hin. unfold last_n in Hin.
      rewrite <- (take_drop (length seen - 31) seen). set_solver. }
    rewrite (recent_block_new s0 Hinv Hd Hnew). cbn. rewrite Hids. apply trimmed_snoc.
Qed.

(** C2, as the code has it. After vehicle positions with distinct ids
    (none flagged invalid, each with its [receivers] mapping) the cache
    lists the 31 most recently first-seen ids, all of them while there are
    no more than 31: the trim to 30 runs when the next unseen id arrives
    and the list is longer than 30, before that id is recorded. The stored contributors are those of the listed
    ids, and any id that is not listed, an evicted one among them, is
    treated as first seen: every contributor is returned as new. *)
Theorem cache_keeps_last_31 json_dumps rfc3339_to_timestamp
    (ds : list document) (d0 : document) :
  NoDup (doc_id <$> ds) →
  (∀ d, d ∈ ds → fix_invalid (doc_data d) = false) →
  (∀ d, d ∈ ds → has_receivers d) →
  let s := feed json_dumps rfc3339_to_timestamp (PayloadTelemetry <$> ds) (init d0) in
  recent_doc_ids s = last_n 31 (doc_id <$> ds) ∧
  dom (recent_doc_receivers s) =@{gset string} list_to_set (last_n 31 (doc_id <$> ds)) ∧
  (31 ≤ length ds → length (recent_doc_ids s) = 31)%nat ∧
  ∀ d, has_receivers d → doc_id d ∉ last_n 31 (doc_id <$> ds) →
       (recent_block (set_doc d s)).1 = Returned (Some (keys (contributors d))).
Proof.
  intros Hnd Hvalid Hrec s.
  assert (recent_inv s) as Hinv.
  { apply feed_inv; [|apply init_inv]. apply Forall_fmap, Forall_forall.
    intros d Hd _. by apply Hrec. }
  assert (recent_doc_ids s = last_n 31 (doc_id <$> ds)) as Hids.
  { apply (feed_window _ _ ds [] (init d0)); [apply init_inv|done|done|done|done]. }
  split; [done|]. split; [|split].
  - apply set_eq. intros i. rewrite elem_of_dom, elem_of_list_to_set, <- Hids.
    symmetry. apply Hinv.
  - intros Hlen. rewrite Hids, last_n_length, length_fmap. lia.
  - intros d Hreceivers Hd.
    assert (recent_doc_receivers (set_doc d s) !! doc_id (doc (set_doc d s)) = None) as Hnew.
    { cbn. destruct (recent_doc_receivers s !! doc_id d) eqn:Hid; [|done].
      exfalso. apply Hd. rewrite <- Hids. apply Hinv. by eexists. }
    by rewrite (recent_block_new (set_doc d s) Hinv Hreceivers Hnew).
Qed.

(** Forty vehicle positions: the cache lists doc-9 to doc-39, and doc-0,
    long evicted, is first seen again. *)
Lemma cache_keeps_last_31_witness :
  let s := feed example_dumps example_timestamp
             (PayloadTelemetry <$> numbered_docs 40) (init doc_AB) in
  length (recent_doc_ids s) = 31%nat ∧
  (recent_block (set_doc (numbered_doc 0) s)).1 =
    Returned (Some (keys (contributors (numbered_doc 0)))).
Proof.
  assert (NoDup (doc_id <$> numbered_docs 40)) as Hnd.
  { apply (bool_decide_unpack _). vm_compute. exact I. }
  assert (∀ d, d ∈ numbered_docs 40 → fix_invalid (doc_data d) = false) as Hvalid.
  { intros d [i [-> _]]%list_elem_of_fmap. reflexivity. }
  assert (∀ d, d ∈ numbered_docs 40 → has_receivers d) as Hrec.
  { intros d [i [-> _]]%list_elem_of_fmap. by eexists. }
  destruct (cache_keeps_last_31 example_dumps example_timestamp
              (numbered_docs 40) doc_AB Hnd Hvalid Hrec)
    as (_ & _ & Hlen & Hnew).
  split.
  - apply Hlen. unfold numbered_docs. rewrite length_fmap, length_seq. lia.
  - apply Hnew; [by eexists|]. apply (bool_decide_unpack _). vm_compute. exact I.
Defined.

(** C2 as it is written fails on 31 vehicle positions with distinct ids:
    the cache then holds 31 ids, not 30, and the oldest of them is still
    tracked. *)
Lemma cache_holds_31_ids :
  let s := feed example_dumps example_timestamp
             (PayloadTelemetry <$> numbered_docs 31) (init doc_AB) in
  length (recent_doc_ids s) = 31%nat ∧
  size (recent_doc_receivers s) = 31%nat ∧
  recent_doc_ids s ≠ last_n 30 (doc_id <$> numbered_docs 31) ∧
  recent_doc_receivers s !! "doc-0" = Some ["A"].
Proof.
  cbn zeta. split; [vm_compute; reflexivity|]. split; [vm_compute; reflexivity|].
  split; [|vm_compute; reflexivity].
  intros Heq. apply (f_equal length) in Heq. vm_compute in Heq. discriminate Heq.
Qed.

(** ** The upload worker (C5) *)

Section WorkerProofs.

Variable env : nat → action → option exn.

Lemma try_except_always_returns {S A} (body handler : M S A) :
  always_returns handler → always_returns (try_except body handler).
Proof.
  intros Hh s. unfold try_except.
  destruct (body s) as [[a|e] s']; [by eexists _, _|apply Hh].
Qed.

#[local] Instance same_turn_preorder : PreOrder same_turn.
Proof. split; unfold same_turn; [done|congruence]. Qed.

Lemma perform_same_turn (a : action) : preserves same_turn (perform env a).
Proof. intros w. unfold perform. by destruct (env _ _). Qed.

(** One turn of the loop returns, whatever its calls do. *)
Lemma uploader_turn_returns (w : worker) :
  ∃ w', uploader_turn env w = (Returned (), w') ∧ turns w' = turns w.
Proof.
  assert (always_returns (uploader_turn env)) as Hret.
  { apply try_except_always_returns, try_except_always_returns.
    intros s. by eexists _, _. }
  assert (preserves same_turn (uploader_turn env)) as Hturn.
  { unfold uploader_turn.
    repeat first [ apply preserves_try_except; [apply _| |]
                 | apply preserves_bind; [apply _| |intros ?]
                 | apply perform_same_turn
                 | apply preserves_ret; apply _ ]. }
  destruct (Hret w) as ([] & w' & Hrun). exists w'. split; [done|].
  specialize (Hturn w). by rewrite Hrun in Hturn.
Qed.

(** C5. Whatever each call of the worker loop does on each turn (the
    delivery, the exception log, the bookkeeping, the debug log, the last
    resort log), every turn returns to the loop head: after any number of
    turns the thread is still running and has taken them all. *)
Theorem uploader_thread_never_dies (n : nat) (w : worker) :
  ∃ w', uploader_thread env n w = (Returned (), w') ∧ turns w' = (turns w + n)%nat.
Proof.
  revert w. induction n as [|n IH]; intros w.
  - exists w. split; [done|]. lia.
  - cbn [uploader_thread]. rewrite bind_run.
    destruct (uploader_turn_returns w) as (w1 & -> & Hturns).
    rewrite bind_run. cbn [modify].
    destruct (IH {| turns := S (turns w1); trace := trace w1 |}) as (w' & -> & Hturns').
    exists w'. split; [done|]. cbn in Hturns'. lia.
Qed.

End WorkerProofs.

(** ** What the callbacks write to the document (C6) *)

Lemma payload_telemetry_doc (json_dumps : json → string) (s : state) :
  let d := doc s in
  let d' := doc (payload_telemetry json_dumps s).2 in
  doc_id d' = doc_id d ∧ doc_receivers d' = doc_receivers d ∧
  doc_time_created d' = doc_time_created d ∧
  (doc_data d' = doc_data d ∨
   doc_data d' = (written_in_place <$> unused (doc_data d)) ∪ doc_data d).
Proof.
  cbn zeta. rewrite payload_telemetry_run.
  destruct (fix_invalid _); [by repeat split; try left|].
  destruct (recent_block_frame s) as (_ & _ & Hdoc).
  destruct (recent_block s) as [[[new_receivers|]|e] s1]; cbn in Hdoc |- *;
    [|rewrite Hdoc; by repeat split; try left..].
  destruct (payload_params _ _); cbn; rewrite Hdoc.
  - repeat split; try done. by right.
  - by repeat split; try left.
Qed.

(** C6, as the code has it. Neither callback touches the id, the
    contributors or the creation time of its document. A vehicle position
    keeps every attribute of [data], except that a residual attribute (not
    a mapped field, not underscore-prefixed) holding a list or a mapping
    has the floats inside it replaced by their strings, in place. An
    observer position keeps every attribute of [data] but [callsign] and
    [speed]. *)
Theorem callbacks_write_little json_dumps rfc3339_to_timestamp (s : state) (d : document) :
  (let d' := doc (couch_callback json_dumps rfc3339_to_timestamp (PayloadTelemetry d) s).2 in
   doc_id d' = doc_id d ∧ doc_receivers d' = doc_receivers d ∧
   doc_time_created d' = doc_time_created d ∧
   ∀ k, doc_data d' !! k = doc_data d !! k ∨
        ∃ v, doc_data d !! k = Some v ∧ is_container v ∧
             (k ∉ used_keys) ∧ String.prefix "_" k = false ∧
             doc_data d' !! k = Some (_all_floats_to_str v)) ∧
  (let d' := doc (couch_callback json_dumps rfc3339_to_timestamp (ListenerTelemetry d) s).2 in
   doc_id d' = doc_id d ∧ doc_receivers d' = doc_receivers d ∧
   doc_time_created d' = doc_time_created d ∧
   ∀ k, k ≠ "callsign" → k ≠ "speed" → doc_data d' !! k = doc_data d !! k).
Proof.
  split; cbn zeta; cbn [couch_callback]; rewrite bind_run; cbn [modify].
  - destruct (payload_telemetry_doc json_dumps (set_doc d s)) as (-> & -> & -> & Hdata).
    repeat split; try done. intros k.
    destruct Hdata as [->| ->]; [by left|]. cbn [doc set_doc].
    rewrite lookup_union, lookup_fmap.
    destruct (unused (doc_data d) !! k) as [v|] eqn:Hk; cbn.
    + apply map_lookup_filter_Some in Hk as (Hv & Hused & Hprefix). cbn in Hused, Hprefix.
      rewrite Hv. cbn. destruct v; try by left.
      all: right; eexists; by repeat split.
    + left. by destruct (doc_data d !! k).
  - destruct (listener_telemetry_frame rfc3339_to_timestamp (set_doc d s))
      as (_ & _ & _ & Hid & Hrec & Htime & Hdata).
    by repeat split.
Qed.

(** C6 as it is written fails for both kinds of event: a chasing observer
    named bob has his [callsign] attribute rewritten, and a vehicle position
    has the float nested under [gps] turned into a string. *)
Lemma callbacks_write_to_the_document :
  (doc_data doc_chaser !! "callsign" = Some (JStr "bob") ∧
   doc_data (doc (couch_callback example_dumps example_timestamp
                    (ListenerTelemetry doc_chaser) (init doc_AB)).2) !! "callsign" =
     Some (JStr "bob_chase")) ∧
  (doc_data doc_nested !! "gps" =
     Some (JDict {[ "hdop" := JFloat (PyFloat.Fin false 3 (-1)) ]}) ∧
   doc_data (doc (couch_callback example_dumps example_timestamp
                    (PayloadTelemetry doc_nested) (init doc_AB)).2) !! "gps" =
     Some (JDict {[ "hdop" := JStr "1.5" ]})).
Proof. repeat split; vm_compute; reflexivity. Qed.

(** ** Induction on JSON values *)

Lemma json_size_lookup (d : gmap string json) (k : string) (v : json) :
  d !! k = Some v → (json_size v < json_size (JDict d))%nat.
Proof.
  intros Hk. cbn [json_size].
  rewrite (map_fold_delete_L _ _ k v d); [lia| |done].
  intros. lia.
Qed.

Lemma json_size_elem (l : list json) (v : json) :
  v ∈ l → (json_size v < json_size (JList l))%nat.
Proof.
  intros Hv. cbn [json_size]. induction Hv as [v l|v w l _ IH]; cbn [foldr]; lia.
Qed.

(** A property holds of every JSON value when it holds of the scalars and
    passes from the members of a list or a dictionary to the container. *)
Lemma json_ind' (P : json → Prop) :
  P JNull → (∀ b, P (JBool b)) → (∀ n, P (JInt n)) → (∀ x, P (JFloat x)) →
  (∀ s, P (JStr s)) →
  (∀ l, Forall P l → P (JList l)) →
  (∀ d, map_Forall (λ _, P) d → P (JDict d)) →
  ∀ j, P j.
Proof.
  intros Hnull Hbool Hint Hfloat Hstr Hlist Hdict j.
  remember (json_size j) as n eqn:Hn. revert j Hn.
  induction n as [n IH] using lt_wf_ind. intros j ->.
  destruct j; auto.
  - apply Hlist, Forall_forall. intros v Hv.
    eapply IH; [|done]. by apply json_size_elem.
  - apply Hdict. intros k v Hk. eapply IH; [|done]. by eapply json_size_lookup.
Qed.

Lemma map_fold_andb {A} (f : A → bool) (d : gmap string A) :
  map_fold (λ _ v b, f v && b) true d = true ↔ map_Forall (λ _ v, f v = true) d.
Proof.
  induction d as [|k v d Hk IH] using map_ind.
  - rewrite map_fold_empty. split; [intros _; apply map_Forall_empty|done].
  - rewrite map_fold_insert_L; [|intros; by rewrite !andb_assoc, (andb_comm (f z1))|done].
    rewrite andb_true_iff, IH, map_Forall_insert by done. tauto.
Qed.

(** ** [_all_floats_to_str] (C10) *)

(** C10. [_all_floats_to_str] returns a dictionary with the same keys
    and each value converted, a list of the same length with each element
    converted, a float as the string [str] gives, and null, booleans,
    integers and strings as they are; a value with no float anywhere in it
    is returned unchanged. *)
Theorem all_floats_to_str_keeps_the_rest :
  (∀ d, ∃ d', _all_floats_to_str (JDict d) = JDict d' ∧
              dom d' =@{gset string} dom d ∧
              ∀ k, d' !! k = _all_floats_to_str <$> d !! k) ∧
  (∀ l, ∃ l', _all_floats_to_str (JList l) = JList l' ∧
              length l' = length l ∧
              ∀ i : nat, l' !! i = _all_floats_to_str <$> l !! i) ∧
  (∀ x, _all_floats_to_str (JFloat x) = JStr (PyFloat.str x)) ∧
  (∀ s, _all_floats_to_str (JStr s) = JStr s) ∧
  (∀ n, _all_floats_to_str (JInt n) = JInt n) ∧
  (∀ b, _all_floats_to_str (JBool b) = JBool b) ∧
  _all_floats_to_str JNull = JNull ∧
  (∀ obj, float_free obj = true ↔ _all_floats_to_str obj = obj).
Proof.
  split; [|split; [|repeat split; try done]].
  - intros d. exists (_all_floats_to_str <$> d). split; [done|].
    split; [apply dom_fmap_L|]. intros k. apply lookup_fmap.
  - intros l. exists (_all_floats_to_str <$> l). split; [done|].
    split; [apply length_fmap|]. intros i. apply list_lookup_fmap.
  - revert obj. induction obj as [| | | | |l IH|d IH] using json_ind'; cbn; try done.
    + rewrite forallb_forall. intros Hl. f_equal.
      rewrite <- (list_fmap_id l) at 2. apply list_fmap_ext.
      intros i v Hv. eapply Forall_lookup_1 in IH; [|done].
      apply IH, Hl. apply list_elem_of_In. by eapply list_elem_of_lookup_2.
    + rewrite map_fold_andb. intros Hd. f_equal.
      rewrite <- (map_fmap_id d) at 2. apply map_fmap_ext.
      intros k v Hk. by apply (IH k v Hk), (Hd k v Hk).
  - revert obj. induction obj as [| | | | |l IH|d IH] using json_ind'; cbn; try done.
    + intros [= Hl]. rewrite forallb_forall. intros v Hv%list_elem_of_In.
      apply list_elem_of_lookup in Hv as [i Hi].
      eapply Forall_lookup_1 in IH; [|done]. apply IH.
      apply (f_equal (λ l, l !! i)) in Hl. rewrite list_lookup_fmap, Hi in Hl.
      by injection Hl.
    + intros [= Hd]. rewrite map_fold_andb. intros k v Hk. apply (IH k v Hk).
      apply (f_equal (λ d, d !! k)) in Hd. rewrite lookup_fmap, Hk in Hd.
      by injection Hd.
Qed.

(** ** [str] of a float (C9) *)












(** *** The numeral that [str] prints *)









Lemma number_of_foldl (vs : list Z) (acc : Z) :
  foldl (λ acc v, 10 * acc + v) acc vs = acc * 10 ^ Z.of_nat (length vs) + number_of vs.
Proof.
  unfold number_of. revert acc. induction vs as [|v vs IH]; intros acc.
  - cbn. lia.
  - cbn [foldl length]. rewrite IH, (IH (10 * 0 + v)).
    rewrite Nat2Z.inj_succ, Z.pow_succ_r by lia. lia.
Qed.

Lemma number_of_app (vs ws : list Z) :
  number_of (vs ++ ws) = number_of vs * 10 ^ Z.of_nat (length ws) + number_of ws.
Proof. unfold number_of at 1. by rewrite foldl_app, number_of_foldl. Qed.


Lemma number_of_bound (vs : list Z) :
  Forall is_digit vs → 0 ≤ number_of vs < 10 ^ Z.of_nat (length vs).
Proof.
  induction vs as [|v vs IH] using rev_ind; intros Hvs; [cbn; lia|].
  apply Forall_app in Hvs as [Hvs Hv]. rewrite Forall_singleton in Hv. unfold is_digit in Hv.
  specialize (IH Hvs). rewrite number_of_app, length_app. cbn [length].
  replace (Z.of_nat (length vs + 1)) with (Z.succ (Z.of_nat (length vs))) by lia.
  rewrite Z.pow_succ_r by lia. change (number_of [v]) with (10 * 0 + v).
  change (10 ^ Z.of_nat 1) with 10. lia.
Qed.



















(** * Further properties of the daemon *)

(** ** The size of the dedup cache *)

Lemma trimmed_length (ids : list string) : (length (trimmed ids) ≤ 30)%nat.
Proof.
  unfold trimmed. destruct (Nat.ltb_spec 30 (length ids)); [|lia].
  rewrite last_n_length. lia.
Qed.

Lemma for_each_del_ids (rm : list string) (s : state) :
  recent_doc_ids (for_each rm del_recent_doc_receivers s).2 = recent_doc_ids s.
Proof.
  revert s. induction rm as [|i rm IH]; intros s; [done|].
  cbn [for_each]. rewrite bind_run. unfold del_recent_doc_receivers at 1.
  destruct (recent_doc_receivers s !! i); [|done]. by rewrite IH.
Qed.

Lemma post_for_each_del_ids (rm : list string) (s : state)
    (Q : outcome () → state → Prop) :
  (∀ r s', recent_doc_ids s' = recent_doc_ids s → Q r s') →
  post (for_each rm del_recent_doc_receivers) s Q.
Proof. intros HQ. apply HQ, for_each_del_ids. Qed.

(** Whether the block returns or raises, and whatever the cache holds. *)
Lemma recent_block_length (s : state) :
  (length (recent_doc_ids s) ≤ 31)%nat →
  (length (recent_doc_ids (recent_block s).2) ≤ 31)%nat.
Proof.
  intros Hlen.
  change (post recent_block s (λ _ s', (length (recent_doc_ids s') ≤ 31)%nat)).
  unfold recent_block. do 4 post_step.
  destruct (recent_doc_receivers s !! doc_id (doc s)) as [old|].
  - repeat post_step; done.
  - do 3 post_step.
    destruct (30 <? length (recent_doc_ids s))%nat eqn:Hlong.
    + apply Nat.ltb_lt in Hlong. do 2 post_step.
      apply post_for_each_del_ids. intros [[]|e] s1 Hids; cbn in Hids.
      * repeat post_step; cbn; rewrite length_app, Hids, length_drop; cbn; lia.
      * rewrite Hids, length_drop. lia.
    + apply Nat.ltb_ge in Hlong.
      repeat post_step; cbn; rewrite length_app; cbn; lia.
Qed.

Lemma couch_callback_length json_dumps rfc3339_to_timestamp (ev : event) (s : state) :
  (length (recent_doc_ids s) ≤ 31)%nat →
  (length (recent_doc_ids
     (couch_callback json_dumps rfc3339_to_timestamp ev s).2) ≤ 31)%nat.
Proof.
  intros Hlen. destruct ev as [d|d]; cbn [couch_callback]; rewrite bind_run; cbn [modify].
  - rewrite payload_telemetry_run. destruct (fix_invalid _); [done|].
    pose proof (recent_block_length (set_doc d s) Hlen) as Hlen'.
    destruct (recent_block (set_doc d s)) as [[[new_receivers|]|e] s1]; cbn in *; try done.
    by destruct (payload_params _ _).
  - by destruct (listener_telemetry_frame rfc3339_to_timestamp (set_doc d s)) as (-> & _).
Qed.

(** However many events the feed delivers, whatever they hold, and
    whether their callbacks return or raise, the dedup cache never lists
    more than 31 ids; and when every vehicle position that is not flagged
    invalid has its [receivers] mapping, it holds as many stored
    contributor lists as it lists ids. *)
Theorem cache_never_exceeds_31 json_dumps rfc3339_to_timestamp
    (evs : list event) (d : document) :
  let s := feed json_dumps rfc3339_to_timestamp evs (init d) in
  (length (recent_doc_ids s) ≤ 31)%nat ∧
  (Forall well_formed evs →
   size (recent_doc_receivers s) = length (recent_doc_ids s)).
Proof.
  cbn zeta.
  assert (∀ s, (length (recent_doc_ids s) ≤ 31)%nat →
    (length (recent_doc_ids (feed json_dumps rfc3339_to_timestamp evs s)) ≤ 31)%nat) as Hfeed.
  { induction evs as [|ev evs IH]; intros s Hlen; [done|].
    cbn. apply IH. by apply couch_callback_length. }
  split; [apply Hfeed; cbn; lia|]. intros Hevs.
  destruct (feed_inv json_dumps rfc3339_to_timestamp evs (init d) Hevs (init_inv d))
    as [Hnd Hdom].
  rewrite <- size_dom, <- (size_list_to_set (C := gset string)) by done.
  f_equal. apply set_eq. intros i. by rewrite elem_of_dom, elem_of_list_to_set.
Qed.

(** ** The queue and the counter *)

#[local] Instance counted_preorder : PreOrder counted.
Proof.
  split.
  - intros s. exists []. cbn. rewrite app_nil_r. split; [done|lia].
  - intros s1 s2 s3 (a1 & Hq1 & Hg1) (a2 & Hq2 & Hg2). exists (a1 ++ a2).
    rewrite Hq2, Hq1, Hg2, Hg1, app_assoc, filter_app, length_app. split; [done|lia].
Qed.

Lemma counted_ext (s s' : state) :
  upload_queue s' = upload_queue s → good_uploads s' = good_uploads s → counted s s'.
Proof. intros Hq Hg. exists []. cbn. rewrite app_nil_r. split; [done|lia]. Qed.

Lemma filter_has_callsign (params : gmap string json) (l : list string) :
  filter has_callsign ((λ c, <["callsign" := JStr c]> params) <$> l) =
  (λ c, <["callsign" := JStr c]> params) <$> l.
Proof.
  induction l as [|c l IH]; [done|]. cbn [fmap list_fmap] in *.
  rewrite filter_cons_True; [by rewrite IH|].
  unfold has_callsign. apply bool_decide_spec. by rewrite lookup_insert_eq.
Qed.

Lemma payload_telemetry_counted (json_dumps : json → string) :
  preserves counted (payload_telemetry json_dumps).
Proof.
  intros s. rewrite payload_telemetry_run. destruct (fix_invalid _); [done|].
  destruct (recent_block_frame s) as (Hq & Hg & _).
  destruct (recent_block s) as [[[new_receivers|]|e] s1]; cbn in Hq, Hg |- *;
    [|by apply counted_ext..].
  destruct (payload_params _ _) as [params|e]; cbn; [|by apply counted_ext].
  eexists. cbn. rewrite Hq, Hg. split; [done|].
  by rewrite filter_has_callsign, length_fmap.
Qed.

(** ** [listener_telemetry], outcome by outcome *)

(** A bare return leaves everything as it was, and happens only for an
    observer who is not chasing; a raise has enqueued
    nothing; and when the method returns, it returns 1 and has enqueued the
    one parameter set built from the document as it then is. *)
Lemma listener_telemetry_post (rfc3339_to_timestamp : json → option Z) (s : state) :
  post (listener_telemetry rfc3339_to_timestamp) s (λ r s',
    match r with
    | Returned None =>
        s' = s ∧ py_truthy (default (JBool false) (doc_data (doc s) !! "chase")) = false
    | Raised e => upload_queue s' = upload_queue s
    | Returned (Some n) =>
        n = 1%nat ∧
        ∃ created,
          rfc3339_to_timestamp (doc_time_created (doc s)) = Some created ∧
          upload_queue s' = upload_queue s ++
            [<["pass" := JStr "aurora"]>
               (<["time" := JStr (strftime_HMS created)]>
                  (_copy_fields listener_fields (doc_data (doc s')) ∅))]
    end).
Proof.
  unfold listener_telemetry. repeat post_step; try done.
  { split; [done|]. by apply negb_true_iff. }
  all: split; [done|].
  all: first [ by eexists
             | match goal with
               | H : _ = Some ?z |- _ => exists z; split; [exact H|reflexivity]
               end ].
Qed.

Lemma listener_params_no_callsign (data : gmap string json) (time : string) :
  has_callsign
    (<["pass" := JStr "aurora"]>
       (<["time" := JStr time]> (_copy_fields listener_fields data ∅))) = false.
Proof.
  unfold has_callsign. apply bool_decide_eq_false. intros [v Hv].
  rewrite !lookup_insert_ne in Hv by done.
  rewrite copy_fields_lookup_ne in Hv by (cbn; set_solver).
  by rewrite lookup_empty in Hv.
Qed.

Lemma listener_telemetry_counted (rfc3339_to_timestamp : json → option Z) :
  preserves counted (listener_telemetry rfc3339_to_timestamp).
Proof.
  intros s. pose proof (listener_telemetry_post rfc3339_to_timestamp s) as Hpost.
  destruct (listener_telemetry_frame rfc3339_to_timestamp s) as (_ & _ & Hg & _).
  unfold post in Hpost.
  destruct (listener_telemetry rfc3339_to_timestamp s) as [[[n|]|e] s']; cbn [fst snd] in *.
  - destruct Hpost as (_ & created & _ & Hq). eexists. split; [exact Hq|].
    rewrite filter_cons_False, filter_nil; [cbn; lia|].
    rewrite listener_params_no_callsign. by intros [].
  - by destruct Hpost as [-> _].
  - by apply counted_ext.
Qed.

Lemma couch_callback_counted json_dumps rfc3339_to_timestamp (ev : event) :
  preserves counted (couch_callback json_dumps rfc3339_to_timestamp ev).
Proof.
  destruct ev; cbn [couch_callback]; (apply preserves_bind; [apply _| |intros ?]).
  - apply preserves_modify. intros s. by apply counted_ext.
  - apply payload_telemetry_counted.
  - apply preserves_modify. intros s. by apply counted_ext.
  - apply listener_telemetry_counted.
Qed.

Lemma feed_counted json_dumps rfc3339_to_timestamp (evs : list event) (s : state) :
  counted s (feed json_dumps rfc3339_to_timestamp evs s).
Proof.
  revert s. induction evs as [|ev evs IH]; intros s; [done|].
  cbn. etrans; [apply couch_callback_counted|apply IH].
Qed.

(** ** The uploader threads take from the queue *)

Lemma queue_blind_ret {A} (a : A) : queue_blind (mret a).
Proof. done. Qed.

Lemma queue_blind_lift {A} (o : outcome A) : queue_blind (lift o).
Proof. done. Qed.

Lemma queue_blind_raise {A} (e : exn) : queue_blind (raise e : M state A).
Proof. done. Qed.

Lemma queue_blind_gets {A} (f : state → A) :
  (∀ q s, f (queue_unget q s) = f s) → queue_blind (gets f).
Proof. intros Hf q s. unfold gets. cbn. by rewrite Hf. Qed.

Lemma queue_blind_modify (f : state → state) :
  (∀ q s, f (queue_unget q s) = queue_unget q (f s)) → queue_blind (modify f).
Proof. intros Hf q s. unfold modify. cbn. by rewrite Hf. Qed.

Lemma queue_blind_bind {A B} (m : M state A) (f : A → M state B) :
  queue_blind m → (∀ a, queue_blind (f a)) → queue_blind (m ≫= f).
Proof.
  intros Hm Hf q s. rewrite !bind_run, Hm.
  destruct (m s) as [[a|e] s']; cbn [fst snd]; [apply Hf|done].
Qed.

Lemma queue_blind_for_each {A} (l : list A) (f : A → M state ()) :
  (∀ x, queue_blind (f x)) → queue_blind (for_each l f).
Proof.
  intros Hf. induction l as [|x l IH]; cbn [for_each].
  - apply queue_blind_ret.
  - by apply queue_blind_bind.
Qed.

Ltac queue_blind_step :=
  first
    [ apply queue_blind_ret
    | apply queue_blind_lift
    | apply queue_blind_raise
    | apply queue_blind_gets; done
    | apply queue_blind_bind; [|intros ?]
    | match goal with
      | |- queue_blind (match ?x with _ => _ end) => destruct x
      end ].

Lemma queue_blind_put (p : gmap string json) : queue_blind (modify (queue_put p)).
Proof.
  apply queue_blind_modify. intros q s. unfold queue_put, queue_unget. cbn.
  by rewrite app_assoc.
Qed.

Lemma recent_block_queue_blind : queue_blind recent_block.
Proof.
  unfold recent_block. repeat queue_blind_step; try (by apply queue_blind_modify).
  apply queue_blind_for_each. intros i q s. unfold del_recent_doc_receivers. cbn.
  by destruct (_ !! _).
Qed.

Lemma payload_telemetry_queue_blind (json_dumps : json → string) :
  queue_blind (payload_telemetry json_dumps).
Proof.
  unfold payload_telemetry.
  repeat first [apply recent_block_queue_blind|queue_blind_step];
    try (by apply queue_blind_modify).
  apply queue_blind_for_each. intros c. apply queue_blind_put.
Qed.

Lemma listener_telemetry_queue_blind (rfc3339_to_timestamp : json → option Z) :
  queue_blind (listener_telemetry rfc3339_to_timestamp).
Proof.
  unfold listener_telemetry. repeat queue_blind_step;
    try (by apply queue_blind_modify); try apply queue_blind_put.
  intros q s. unfold data_get. cbn. by destruct (_ !! _).
Qed.

Lemma couch_callback_queue_blind json_dumps rfc3339_to_timestamp (ev : event) :
  queue_blind (couch_callback json_dumps rfc3339_to_timestamp ev).
Proof.
  destruct ev; cbn [couch_callback]; (apply queue_blind_bind; [|intros ?]);
    first [by apply queue_blind_modify
          |apply payload_telemetry_queue_blind
          |apply listener_telemetry_queue_blind].
Qed.

(** One more occurrence. *)
Lemma daemon_snoc json_dumps rfc3339_to_timestamp
    (occ : list occurrence) (o : occurrence) (s : state) :
  daemon json_dumps rfc3339_to_timestamp (occ ++ [o]) s =
  match o with
  | Delivered ev =>
      ((couch_callback json_dumps rfc3339_to_timestamp ev
          (daemon json_dumps rfc3339_to_timestamp occ s).1).2,
       (daemon json_dumps rfc3339_to_timestamp occ s).2)
  | Taken =>
      match queue_get (daemon json_dumps rfc3339_to_timestamp occ s).1 with
      | Some (p, s') => (s', (daemon json_dumps rfc3339_to_timestamp occ s).2 ++ [p])
      | None => daemon json_dumps rfc3339_to_timestamp occ s
      end
  end.
Proof.
  unfold daemon. rewrite foldl_app. cbn [foldl].
  destruct (foldl _ (s, []) occ) as [s0 taken]. cbn [fst snd].
  by destruct o as [ev|].
Qed.

(** With the items taken put back, the daemon is where the feed alone
    would have brought it. *)
Lemma daemon_feed json_dumps rfc3339_to_timestamp (occ : list occurrence) (s : state) :
  feed json_dumps rfc3339_to_timestamp (delivered occ) s =
  queue_unget (daemon json_dumps rfc3339_to_timestamp occ s).2
              (daemon json_dumps rfc3339_to_timestamp occ s).1.
Proof.
  induction occ as [|o occ IH] using rev_ind; [by destruct s|].
  rewrite daemon_snoc. unfold delivered in *. rewrite omap_app.
  unfold feed in *. rewrite foldl_app, IH.
  destruct (daemon json_dumps rfc3339_to_timestamp occ s) as [s0 taken]. cbn [fst snd].
  destruct o as [ev|]; cbn [omap list_omap foldl fst snd].
  - by rewrite couch_callback_queue_blind.
  - unfold queue_get. destruct s0 as [ids receivers queue good d]. cbn.
    destruct queue as [|p queue]; [done|]. unfold queue_unget. cbn.
    by rewrite <- app_assoc.
Qed.

Lemma daemon_taken json_dumps rfc3339_to_timestamp (occ occ' : list occurrence) (s : state) :
  (daemon json_dumps rfc3339_to_timestamp occ s).2 `prefix_of`
  (daemon json_dumps rfc3339_to_timestamp (occ ++ occ') s).2.
Proof.
  induction occ' as [|o occ' IH] using rev_ind; [by rewrite app_nil_r|].
  rewrite app_assoc, daemon_snoc. destruct o as [ev|]; [done|].
  destruct (queue_get _) as [[p s']|]; [|done].
  cbn [snd]. etrans; [exact IH|]. by eexists.
Qed.

(** While the daemon runs, callbacks putting and uploader threads taking
    in any order, the items taken and then the items queued are what the
    feed alone would have left in the queue, the rest of the state being
    the same: the uploader threads take the items in the order in which
    they were put, none twice and none skipped, and what they take has no
    effect on the callbacks. The [good_uploads] counter is the number of
    parameter sets naming a contributor (those of vehicle positions)
    among the items put so far, taken or still queued; observer positions
    are enqueued but never counted. Later occurrences only add at the end
    of the items taken and of the items put. *)
Theorem counter_counts_vehicle_uploads json_dumps rfc3339_to_timestamp
    (occ occ' : list occurrence) (d : document) :
  let r := daemon json_dumps rfc3339_to_timestamp occ (init d) in
  let r' := daemon json_dumps rfc3339_to_timestamp (occ ++ occ') (init d) in
  feed json_dumps rfc3339_to_timestamp (delivered occ) (init d) = queue_unget r.2 r.1 ∧
  good_uploads r.1 = Z.of_nat (length (filter has_callsign (r.2 ++ upload_queue r.1))) ∧
  r.2 `prefix_of` r'.2 ∧
  (r.2 ++ upload_queue r.1) `prefix_of` (r'.2 ++ upload_queue r'.1).
Proof.
  cbn zeta.
  pose proof (daemon_feed json_dumps rfc3339_to_timestamp occ (init d)) as Hfeed.
  pose proof (daemon_feed json_dumps rfc3339_to_timestamp (occ ++ occ') (init d)) as Hfeed'.
  destruct (feed_counted json_dumps rfc3339_to_timestamp (delivered occ) (init d))
    as (a & Hq & Hg).
  destruct (feed_counted json_dumps rfc3339_to_timestamp (delivered occ')
              (feed json_dumps rfc3339_to_timestamp (delivered occ) (init d)))
    as (a' & Hq' & _).
  unfold delivered in Hfeed'. rewrite omap_app in Hfeed'. fold (delivered occ) in Hfeed'.
  fold (delivered occ') in Hfeed'. unfold feed in Hfeed' at 1. rewrite foldl_app in Hfeed'.
  fold (feed json_dumps rfc3339_to_timestamp (delivered occ) (init d)) in Hfeed'.
  fold (feed json_dumps rfc3339_to_timestamp (delivered occ')
          (feed json_dumps rfc3339_to_timestamp (delivered occ) (init d))) in Hfeed'.
  rewrite Hfeed' in Hq'. rewrite Hfeed in Hq, Hg, Hq'. cbn in Hq, Hg, Hq'.
  split; [done|]. split; [rewrite Hg, Hq; lia|]. split; [apply daemon_taken|].
  rewrite Hq'. by eexists.
Qed.

(** ** Callbacks that raise *)

(** A callback that raises has enqueued nothing and counted nothing,
    whatever it did to the dedup cache or the document before. *)
Theorem raising_callback_enqueues_nothing json_dumps rfc3339_to_timestamp
    (ev : event) (s s' : state) (e : exn) :
  couch_callback json_dumps rfc3339_to_timestamp ev s = (Raised e, s') →
  upload_queue s' = upload_queue s ∧ good_uploads s' = good_uploads s.
Proof.
  destruct ev as [d|d]; cbn [couch_callback]; rewrite bind_run; cbn [modify].
  - rewrite payload_telemetry_run. destruct (fix_invalid _); [done|].
    destruct (recent_block_frame (set_doc d s)) as (Hq & Hg & _).
    destruct (recent_block (set_doc d s)) as [[[new_receivers|]|e0] s1]; cbn in Hq, Hg.
    + destruct (payload_params _ _); [done|]. by intros [= _ <-].
    + done.
    + by intros [= _ <-].
  - pose proof (listener_telemetry_post rfc3339_to_timestamp (set_doc d s)) as Hpost.
    destruct (listener_telemetry_frame rfc3339_to_timestamp (set_doc d s))
      as (_ & _ & Hg & _).
    unfold post in Hpost. intros Hrun. rewrite Hrun in Hpost, Hg. by cbn in *.
Qed.

(** A vehicle position whose time is a number: [.replace] raises, with
    the queue and the counter as they were. *)
Lemma raising_callback_witness :
  (couch_callback example_dumps example_timestamp
     (PayloadTelemetry doc_bad_time) (init doc_AB)).1 = Raised AttributeError ∧
  upload_queue (couch_callback example_dumps example_timestamp
                  (PayloadTelemetry doc_bad_time) (init doc_AB)).2 = [] ∧
  good_uploads (couch_callback example_dumps example_timestamp
                  (PayloadTelemetry doc_bad_time) (init doc_AB)).2 = 0.
Proof.
  destruct (couch_callback example_dumps example_timestamp
              (PayloadTelemetry doc_bad_time) (init doc_AB)) as [r s'] eqn:Hrun.
  assert (r = Raised AttributeError) as ->.
  { vm_compute in Hrun. by injection Hrun as <- _. }
  split; [done|].
  exact (raising_callback_enqueues_nothing example_dumps example_timestamp
           (PayloadTelemetry doc_bad_time) (init doc_AB) s' AttributeError Hrun).
Defined.

(** ** Redelivery of a document *)

Lemma recent_block_stores (s : state) :
  recent_inv s →
  has_receivers (doc s) →
  recent_doc_receivers (recent_block s).2 !! doc_id (doc s) =
  Some (keys (contributors (doc s))).
Proof.
  intros Hinv Hrec.
  destruct (recent_doc_receivers s !! doc_id (doc s)) as [old|] eqn:Hid.
  - rewrite (recent_block_known s old Hrec Hid). cbn. apply lookup_insert_eq.
  - rewrite (recent_block_new s Hinv Hrec Hid). cbn. apply lookup_insert_eq.
Qed.

Lemma fix_invalid_written (data : gmap string json) :
  fix_invalid ((written_in_place <$> unused data) ∪ data) = fix_invalid data.
Proof.
  unfold fix_invalid. rewrite lookup_union_r; [done|].
  rewrite lookup_fmap. unfold unused.
  by rewrite map_lookup_filter_None_2 by (right; intros v _ [_ [=]]).
Qed.

(** The feed may deliver a document more than once. A vehicle position
    with its [receivers] mapping that is handled again right after it was
    handled, with the same contributors, returns from the dedup step:
    nothing is enqueued or counted and the list of recent ids stays as it
    is. This holds whether the first call returned or raised after the
    dedup step. *)
Theorem redelivery_enqueues_nothing (json_dumps : json → string) (s : state) :
  recent_inv s →
  has_receivers (doc s) →
  fix_invalid (doc_data (doc s)) = false →
  let s1 := (payload_telemetry json_dumps s).2 in
  ∃ s2, payload_telemetry json_dumps s1 = (Returned None, s2) ∧
        upload_queue s2 = upload_queue s1 ∧
        good_uploads s2 = good_uploads s1 ∧
        recent_doc_ids s2 = recent_doc_ids s1.
Proof.
  intros Hinv Hhas Hvalid s1.
  destruct (payload_telemetry_recent json_dumps s Hvalid) as [_ Hrec].
  destruct (payload_telemetry_doc json_dumps s) as (Hid & Hreceivers & _ & Hdata).
  fold s1 in Hrec, Hid, Hreceivers, Hdata.
  assert (fix_invalid (doc_data (doc s1)) = false) as Hvalid1.
  { destruct Hdata as [-> | ->]; [done|]. by rewrite fix_invalid_written. }
  assert (has_receivers (doc s1)) as Hhas1.
  { unfold has_receivers. by rewrite Hreceivers. }
  assert (recent_doc_receivers s1 !! doc_id (doc s1) =
          Some (keys (contributors (doc s1)))) as Hknown.
  { unfold contributors at 1. rewrite Hrec, Hid, Hreceivers. by apply recent_block_stores. }
  rewrite payload_telemetry_run, Hvalid1.
  rewrite (recent_block_known s1 _ Hhas1 Hknown). cbn zeta.
  rewrite difference_diag_L, elements_empty.
  change (length (@nil string) =? 0)%nat with true. cbv iota.
  eexists. split; [reflexivity|]. by repeat split.
Qed.

Lemma redelivery_witness :
  let s1 := (payload_telemetry example_dumps (init doc_AB)).2 in
  length (upload_queue s1) = 2%nat ∧
  ∃ s2, payload_telemetry example_dumps s1 = (Returned None, s2) ∧
        upload_queue s2 = upload_queue s1.
Proof.
  cbn zeta. split; [vm_compute; reflexivity|].
  destruct (redelivery_enqueues_nothing example_dumps (init doc_AB)
              (init_inv doc_AB) ltac:(by eexists) eq_refl) as (s2 & Hrun & Hq & _).
  exists s2. split; [exact Hrun|exact Hq].
Defined.

(** ** [_copy_fields] *)

Lemma copy_fields_cons (tgt src : string) (fields : list (string * string))
    (data params : gmap string json) :
  _copy_fields ((tgt, src) :: fields) data params =
  _copy_fields fields data
    (match data !! src with Some v => <[tgt := v]> params | None => params end).
Proof. reflexivity. Qed.

Lemma copy_fields_lookup (fields : list (string * string))
    (data params : gmap string json) (tgt src : string) :
  NoDup fields.*1 → (tgt, src) ∈ fields →
  _copy_fields fields data params !! tgt =
  match data !! src with Some v => Some v | None => params !! tgt end.
Proof.
  revert params. induction fields as [|[t' s'] fields IH]; intros params Hnd Hin.
  { by apply elem_of_nil in Hin. }
  cbn in Hnd. apply NoDup_cons in Hnd as [Ht' Hnd]. rewrite copy_fields_cons.
  apply elem_of_cons in Hin as [[= <- <-]|Hin].
  - rewrite copy_fields_lookup_ne by done.
    destruct (data !! src); [by rewrite lookup_insert_eq|done].
  - rewrite IH by done. destruct (data !! src); [done|].
    assert (tgt ≠ t') as Hne.
    { intros ->. apply Ht'. apply list_elem_of_fmap. by exists (t', src). }
    destruct (data !! s'); [by rewrite lookup_insert_ne|done].
Qed.

(** [_copy_fields] on a fields dictionary (no target twice): each target
    gets the value of its source when [data] has it and is left as it was
    when not, no other parameter changes, and the order in which the
    dictionary is gone through makes no difference. *)
Theorem copy_fields_by_target (fields : list (string * string))
    (data params : gmap string json) :
  NoDup fields.*1 →
  (∀ tgt src, (tgt, src) ∈ fields →
     _copy_fields fields data params !! tgt =
     match data !! src with Some v => Some v | None => params !! tgt end) ∧
  (∀ k, k ∉ fields.*1 → _copy_fields fields data params !! k = params !! k) ∧
  (∀ fields', fields' ≡ₚ fields →
     _copy_fields fields' data params = _copy_fields fields data params).
Proof.
  intros Hnd. split; [|split].
  - intros tgt src. by apply copy_fields_lookup.
  - intros k. apply copy_fields_lookup_ne.
  - intros fields' Hperm. apply map_eq. intros k.
    assert (NoDup fields'.*1) as Hnd' by by rewrite Hperm.
    destruct (decide (k ∈ fields.*1)) as [Hk|Hk].
    + apply list_elem_of_fmap in Hk as [[tgt src] [-> Hin]]. cbn.
      rewrite (copy_fields_lookup fields data params tgt src) by done.
      apply copy_fields_lookup; [done|]. by rewrite Hperm.
    + rewrite !copy_fields_lookup_ne; [done|done|]. by rewrite Hperm.
Qed.

Lemma copy_fields_witness :
  _copy_fields (reverse payload_fields) (doc_data doc_AB) payload_required =
  _copy_fields payload_fields (doc_data doc_AB) payload_required.
Proof.
  assert (NoDup payload_fields.*1) as Hnd.
  { apply (bool_decide_unpack _). vm_compute. exact I. }
  apply (copy_fields_by_target payload_fields (doc_data doc_AB) payload_required Hnd).
  apply reverse_Permutation.
Defined.

(** ** The parameter set of a vehicle position *)

Lemma copy_fields_dom (fields : list (string * string)) (data params : gmap string json) :
  dom (_copy_fields fields data params) ⊆@{gset string} dom params ∪ list_to_set fields.*1.
Proof.
  revert params. induction fields as [|[tgt src] fields IH]; intros params.
  - cbn. set_solver.
  - rewrite copy_fields_cons. etrans; [apply IH|].
    destruct (data !! src); [rewrite dom_insert_L|]; cbn; set_solver.
Qed.

Lemma remove_colons_free (s : string) : colon_free (remove_colons s).
Proof.
  induction s as [|c s IH]; [done|]. cbn.
  destruct (Ascii.eqb_spec c ":"); [done|]. by split.
Qed.

Lemma payload_fields_NoDup : NoDup payload_fields.*1.
Proof. apply (bool_decide_unpack _). vm_compute. exact I. Qed.

Lemma listener_fields_NoDup : NoDup listener_fields.*1.
Proof. apply (bool_decide_unpack _). vm_compute. exact I. Qed.

(** When [payload_telemetry] gets to build its parameter set, the set
    names only parameters of the tracker; it always has a position, a
    time without colons, the residual data and the password, with
    Bermuda at altitude 0 standing in for a missing position; and the
    optional fields are there exactly when the document has them. *)
Theorem payload_params_fields (json_dumps : json → string)
    (data params : gmap string json) :
  payload_params json_dumps data = Returned params →
  dom params ⊆ tracker_keys ∖ {["callsign"]} ∧
  params !! "lat" = Some (default (JFloat PyFloat.f32_3) (data !! "latitude")) ∧
  params !! "lon" = Some (default (JFloat PyFloat.fm64_8) (data !! "longitude")) ∧
  params !! "alt" = Some (default (JInt 0) (data !! "altitude")) ∧
  (∃ t, params !! "time" = Some (JStr t) ∧ colon_free t) ∧
  params !! "data" = Some (JStr (json_dumps (_all_floats_to_str (JDict (unused data))))) ∧
  params !! "pass" = Some (JStr "aurora") ∧
  params !! "vehicle" = data !! "payload" ∧
  params !! "heading" = data !! "heading" ∧
  params !! "speed" = data !! "speed" ∧
  params !! "seq" = data !! "sentence_id".
Proof.
  unfold payload_params. rewrite payload_copied_time.
  destruct (default (JStr "00:00:00") (data !! "time")) as [| | | |t| |] eqn:Ht;
    cbv beta iota zeta delta [py_replace_colons]; try done.
  intros Heq.
  apply (f_equal (λ r, match r with Returned p => p | Raised _ => params end)) in Heq.
  cbv beta iota in Heq. subst params.
  pose proof (copy_fields_dom payload_fields data payload_required) as Hdom.
  pose proof (λ tgt src, copy_fields_lookup payload_fields data payload_required
                           tgt src payload_fields_NoDup) as Hlook.
  split.
  { assert (dom payload_required ∪ list_to_set payload_fields.*1
            ⊆@{gset string} tracker_keys ∖ {["callsign"]}) as Hsub.
    { apply (bool_decide_unpack _). vm_compute. exact I. }
    assert ({["pass"; "data"; "time"]} ⊆@{gset string} tracker_keys ∖ {["callsign"]})
      as Hnew.
    { apply (bool_decide_unpack _). vm_compute. exact I. }
    rewrite !dom_insert_L.
    generalize dependent (tracker_keys ∖ {["callsign"]}). intros K Hsub Hnew.
    set_solver. }
  split.
  { do 3 rewrite lookup_insert_ne by done. rewrite (Hlook "lat" "latitude") by (apply (bool_decide_unpack _); vm_compute; exact I).
    by destruct (data !! "latitude"). }
  split.
  { do 3 rewrite lookup_insert_ne by done. rewrite (Hlook "lon" "longitude") by (apply (bool_decide_unpack _); vm_compute; exact I).
    by destruct (data !! "longitude"). }
  split.
  { do 3 rewrite lookup_insert_ne by done. rewrite (Hlook "alt" "altitude") by (apply (bool_decide_unpack _); vm_compute; exact I).
    by destruct (data !! "altitude"). }
  split.
  { exists (remove_colons t). rewrite !lookup_insert_ne, lookup_insert_eq by done.
    split; [done|apply remove_colons_free]. }
  split; [by rewrite lookup_insert_ne, lookup_insert_eq|].
  split; [by rewrite lookup_insert_eq|].
  split.
  { do 3 rewrite lookup_insert_ne by done. rewrite (Hlook "vehicle" "payload") by (apply (bool_decide_unpack _); vm_compute; exact I).
    by destruct (data !! "payload"). }
  split.
  { do 3 rewrite lookup_insert_ne by done. rewrite (Hlook "heading" "heading") by (apply (bool_decide_unpack _); vm_compute; exact I).
    by destruct (data !! "heading"). }
  split.
  { do 3 rewrite lookup_insert_ne by done. rewrite (Hlook "speed" "speed") by (apply (bool_decide_unpack _); vm_compute; exact I).
    by destruct (data !! "speed"). }
  do 3 rewrite lookup_insert_ne by done. rewrite (Hlook "seq" "sentence_id") by (apply (bool_decide_unpack _); vm_compute; exact I).
  by destruct (data !! "sentence_id").
Qed.

Lemma payload_params_fields_witness :
  ∃ params,
    payload_params example_dumps (doc_data doc_AB) = Returned params ∧
    params !! "lat" = Some (JFloat PyFloat.f32_3) ∧
    params !! "vehicle" = Some (JStr "X").
Proof.
  destruct (payload_params example_dumps (doc_data doc_AB)) as [params|e] eqn:Hparams;
    [|by vm_compute in Hparams].
  destruct (payload_params_fields example_dumps (doc_data doc_AB) params Hparams)
    as (_ & Hlat & _ & _ & _ & _ & _ & Hvehicle & _).
  exists params. split; [done|]. split; [exact Hlat|exact Hvehicle].
Defined.

(** ** The callsign of a chasing observer *)

Lemma contains_app_r (needle a b : string) :
  contains needle b = true → contains needle (a +:+ b) = true.
Proof.
  intros Hb. induction a as [|c a IH]; [done|].
  change (String c a +:+ b) with (String c (a +:+ b)).
  cbn [contains]. rewrite IH. apply orb_true_r.
Qed.

Lemma marked_reads_as_chase (c : string) :
  contains "chase" (marked c) || contains "car" (marked c) = true.
Proof.
  unfold marked. destruct (contains "chase" c || contains "car" c) eqn:Hc; [done|].
  rewrite (contains_app_r "chase" c "_chase"); done.
Qed.

Lemma marked_idemp (c : string) : marked (marked c) = marked c.
Proof. unfold marked at 1. by rewrite marked_reads_as_chase. Qed.

Lemma listener_telemetry_callsign (rfc3339_to_timestamp : json → option Z)
    (s : state) (c : string) :
  py_truthy (default (JBool false) (doc_data (doc s) !! "chase")) = true →
  doc_data (doc s) !! "callsign" = Some (JStr c) →
  post (listener_telemetry rfc3339_to_timestamp) s (λ _ s',
    doc_data (doc s') !! "callsign" = Some (JStr (marked c))).
Proof.
  intros Hchase Hc. unfold listener_telemetry, marked.
  repeat post_step; simplify_eq/=.
  all: repeat match goal with
              | H : contains _ _ = _ |- _ => rewrite H
              | H : negb _ && negb _ = _ |- _ => rewrite H
              end; cbn [orb negb andb].
  all: rewrite ?lookup_insert_ne by done; rewrite ?lookup_insert_eq; try done.
  all: try by rewrite Hchase in *.
  all: destruct (contains "car" c); by simplify_eq/=.
Qed.

(** A chasing observer whose callsign is a string: whatever else the
    call does, the document's callsign is left marked, that is with
    [_chase] appended unless it already contains [chase] or [car]; a marked
    callsign is not marked again; and when the call returns, the one
    parameter set it has enqueued carries the marked callsign as [vehicle],
    the creation time as [time] and the password. *)
Theorem chasers_are_marked_once (rfc3339_to_timestamp : json → option Z)
    (s : state) (c : string) :
  py_truthy (default (JBool false) (doc_data (doc s) !! "chase")) = true →
  doc_data (doc s) !! "callsign" = Some (JStr c) →
  let r := (listener_telemetry rfc3339_to_timestamp s).1 in
  let s' := (listener_telemetry rfc3339_to_timestamp s).2 in
  doc_data (doc s') !! "callsign" = Some (JStr (marked c)) ∧
  contains "chase" (marked c) || contains "car" (marked c) = true ∧
  marked (marked c) = marked c ∧
  (∀ n, r = Returned n →
     n = Some 1%nat ∧
     ∃ p created,
       upload_queue s' = upload_queue s ++ [p] ∧
       rfc3339_to_timestamp (doc_time_created (doc s)) = Some created ∧
       p !! "vehicle" = Some (JStr (marked c)) ∧
       p !! "time" = Some (JStr (strftime_HMS created)) ∧
       p !! "pass" = Some (JStr "aurora")).
Proof.
  intros Hchase Hc r s'.
  pose proof (listener_telemetry_callsign rfc3339_to_timestamp s c Hchase Hc) as Hmark.
  pose proof (listener_telemetry_post rfc3339_to_timestamp s) as Hpost.
  unfold post in Hmark, Hpost. fold r s' in Hmark, Hpost.
  split; [done|]. split; [apply marked_reads_as_chase|]. split; [apply marked_idemp|].
  intros n Hn. rewrite Hn in Hpost. destruct n as [n|].
  - destruct Hpost as (-> & created & Hcreated & Hq). split; [done|].
    eexists _, created. split; [exact Hq|]. split; [done|].
    split; [|split].
    + do 2 rewrite lookup_insert_ne by done.
      rewrite (copy_fields_lookup listener_fields _ _ "vehicle" "callsign");
        [by rewrite Hmark|apply listener_fields_NoDup|].
      apply (bool_decide_unpack _). vm_compute. exact I.
    + by rewrite lookup_insert_ne, lookup_insert_eq.
    + by rewrite lookup_insert_eq.
  - destruct Hpost as [_ Hfalse]. by rewrite Hchase in Hfalse.
Qed.

Lemma chasers_are_marked_witness :
  doc_data (doc (listener_telemetry example_timestamp (init doc_chaser)).2) !! "callsign" =
  Some (JStr "bob_chase").
Proof.
  exact (proj1 (chasers_are_marked_once example_timestamp (init doc_chaser) "bob"
                  eq_refl eq_refl)).
Defined.

(** ** [_all_floats_to_str], all the way down *)

Lemma all_floats_to_str_free (obj : json) :
  float_free obj = true → _all_floats_to_str obj = obj.
Proof.
  induction obj as [| | | | |l IH|d IH] using json_ind'; cbn; try done.
  - rewrite forallb_forall. intros Hl. f_equal.
    rewrite <- (list_fmap_id l) at 2. apply list_fmap_ext.
    intros i v Hv. eapply Forall_lookup_1 in IH; [|done].
    apply IH, Hl. apply list_elem_of_In. by eapply list_elem_of_lookup_2.
  - rewrite map_fold_andb. intros Hd. f_equal.
    rewrite <- (map_fmap_id d) at 2. apply map_fmap_ext.
    intros k v Hk. by apply (IH k v Hk), (Hd k v Hk).
Qed.

(** What [_all_floats_to_str] returns holds no float at any depth, so
    [json.dumps] never sees one, and converting again changes nothing. *)
Theorem all_floats_to_str_leaves_no_float (obj : json) :
  float_free (_all_floats_to_str obj) = true ∧
  _all_floats_to_str (_all_floats_to_str obj) = _all_floats_to_str obj.
Proof.
  assert (float_free (_all_floats_to_str obj) = true) as Hfree.
  { induction obj as [| | | | |l IH|d IH] using json_ind'; cbn; try done.
    - rewrite forallb_forall. intros v Hv%list_elem_of_In.
      apply list_elem_of_fmap in Hv as [w [-> Hw]].
      rewrite Forall_forall in IH. by apply IH.
    - rewrite map_fold_andb. intros k v. rewrite lookup_fmap.
      destruct (d !! k) as [w|] eqn:Hk; [|done]. intros [= <-]. by apply (IH k w). }
  split; [done|]. by apply all_floats_to_str_free.
Qed.

(** ** One turn of the worker, call by call *)

Section WorkerTurns.

Variable env : nat → action → option exn.

(** A turn in which the queue hands out an item and [task_done] works:
    the item is marked done whether the delivery returned, or raised and
    was logged. When the delivery raises and logging it raises too, the
    turn ends in the outer handler and [task_done] is not called; nor is it
    when the queue itself raises. *)
Theorem task_done_after_delivery (w : worker) :
  let t := turns w in
  let w' := (uploader_turn env w).2 in
  (env t QueueGet = None → env t TaskDone = None →
   env t PostToTrack = None ∨ env t LogUploadException = None →
   (t, TaskDone) ∈ trace w') ∧
  (env t QueueGet = None → is_Some (env t PostToTrack) →
   is_Some (env t LogUploadException) →
   trace w' = trace w ++ (t, QueueGet) ::
                match env t LogConfused with None => [(t, LogConfused)] | Some _ => [] end) ∧
  (is_Some (env t QueueGet) →
   trace w' = trace w ++
                match env t LogConfused with None => [(t, LogConfused)] | Some _ => [] end).
Proof.
  cbn zeta. unfold uploader_turn, try_except, perform, mbind, M_bind, mret, M_ret.
  split; [|split].
  - intros Hget Hdone Hpost. cbn. rewrite Hget. cbn.
    repeat (case_match; simplify_eq/=); try set_solver.
    all: destruct Hpost; congruence.
  - intros Hget [e1 Hpost] [e2 Hlog]. cbn. rewrite Hget. cbn. rewrite Hpost. cbn.
    rewrite Hlog. cbn. destruct (env (turns w) LogConfused); cbn; by rewrite <- ?app_assoc.
  - intros [e Hget]. cbn. rewrite Hget. cbn.
    destruct (env (turns w) LogConfused); cbn; by rewrite ?app_nil_r.
Qed.

End WorkerTurns.

Lemma task_done_witness :
  (0%nat, TaskDone) ∈ trace (uploader_turn env_post_raises {| turns := 0; trace := [] |}).2.
Proof.
  apply (proj1 (task_done_after_delivery env_post_raises {| turns := 0; trace := [] |}));
    [reflexivity|reflexivity|by right].
Defined.

(** ** The filter *)

(** [spacenear_filter] lets through every [listener_telemetry] document
    and a [payload_telemetry] document exactly when its [data] holds
    [_parsed]; a document of another type, or with no type or no data, is
    turned down, and on a document whose [data] is a mapping the filter
    never raises. *)
Theorem spacenear_filter_lets_through (doc : gmap string json) :
  (spacenear_filter doc = Returned true ↔
     ∃ type, doc !! "type" = Some type ∧
       (is_str "listener_telemetry" type = true ∨
        is_str "payload_telemetry" type = true ∧
        ∃ data, doc !! "data" = Some data ∧ py_in "_parsed" data = Returned true)) ∧
  (∀ d, doc !! "data" = Some (JDict d) →
     ∃ b, spacenear_filter doc = Returned b ∧
          (doc !! "type" = Some (JStr "payload_telemetry") →
           b = bool_decide (is_Some (d !! "_parsed")))) ∧
  (doc !! "type" = None ∨ doc !! "data" = None →
   spacenear_filter doc =
     Returned (match doc !! "type" with
               | Some type => is_str "listener_telemetry" type
               | None => false
               end)).
Proof.
  unfold spacenear_filter. split; [|split].
  - destruct (doc !! "type") as [type|].
    2: { split; [intros [=]|]. by intros (? & [=] & _). }
    destruct (is_str "listener_telemetry" type) eqn:Hl.
    { split; [|done]. intros _. exists type. split; [done|by left]. }
    destruct (is_str "payload_telemetry" type) eqn:Hp.
    2: { split; [intros [=]|]. intros (? & [= <-] & [?|[? _]]); congruence. }
    destruct (doc !! "data") as [data|].
    2: { split; [intros [=]|]. intros (? & [= <-] & [?|(_ & ? & [=] & _)]). congruence. }
    destruct (py_in "_parsed" data) as [[]|] eqn:Hin.
    + split; [|done]. intros _. exists type. split; [done|]. right. eauto.
    + split; [intros [=]|]. intros (? & [= <-] & [?|(_ & ? & [= <-] & ?)]); congruence.
    + split; [intros [=]|]. intros (? & [= <-] & [?|(_ & ? & [= <-] & ?)]); congruence.
  - intros d ->. destruct (doc !! "type") as [type|]; [|by eexists].
    destruct (is_str "listener_telemetry" type) eqn:Hl.
    { eexists. split; [done|]. by intros [= ->]. }
    destruct (is_str "payload_telemetry" type) eqn:Hp.
    + cbn [py_in]. exists (bool_decide (is_Some (d !! "_parsed"))).
      split; [by destruct (bool_decide _)|done].
    + eexists. split; [done|]. by intros [= ->].
  - intros [-> | Hdata]; [done|]. rewrite Hdata.
    destruct (doc !! "type") as [type|]; [|done].
    by destruct (is_str "listener_telemetry" type), (is_str "payload_telemetry" type).
Qed.

(** ** Documents the callbacks choke on *)




